(** * BMW CarData integration: REST client, OAuth device flow, coordinator

    A shallow embedding of [api.py], [auth.py], [coordinator.py],
    [config_flow.py] and [mqtt_stream.py].  Wall-clock time
    ([time.time()], [loop.time()]) is modelled at whole-second resolution
    as [Z]; Python exceptions are the left side of a sum. *)

From Stdlib Require Import Ascii Sorting.Sorted.
From stdpp Require Import base gmap strings list pretty.

Local Open Scope Z_scope.

(** ** JSON values as decoded by [json.loads] *)

Set Warnings "-register-all".

Inductive json :=
| JNull
| JBool (b : bool)
| JNum (z : Z)
| JStr (s : string)
| JList (l : list json)
| JObj (kvs : list (string * json)).

(** Python exceptions raised on the modelled paths. *)
Inductive Exc :=
| RateLimitExceeded (reset_in : Z)
| APIError (status : Z)
| AuthError
| AuthorizationPending
| SlowDown
| DeviceCodeExpired
| TokenRefreshFailed
| ConfigEntryAuthFailed
| AttributeError
| KeyError
| TypeError
| ConnectionError
| JSONDecodeError.

(** [isinstance(err, AuthError)]: the OAuth exceptions all subclass it. *)
Definition is_auth_error (e : Exc) : bool :=
  match e with
  | AuthError | AuthorizationPending | SlowDown | DeviceCodeExpired
  | TokenRefreshFailed => true
  | _ => false
  end.

(** [dict.get(key)] on a decoded JSON object (keys are unique there). *)
Fixpoint assoc_get (k : string) (kvs : list (string * json)) : option json :=
  match kvs with
  | [] => None
  | (k', v) :: r => if decide (k = k') then Some v else assoc_get k r
  end.

(** [payload.get(key, default)]: an [AttributeError] unless [payload] is
    a dict. *)
Definition py_get (j : json) (k : string) (default : json) : Exc + json :=
  match j with
  | JObj kvs => inr (match assoc_get k kvs with Some v => v | None => default end)
  | _ => inl AttributeError
  end.

(** Python truthiness of a JSON value. *)
Definition truthy (j : json) : bool :=
  match j with
  | JNull => false
  | JBool b => b
  | JNum z => negb (z =? 0)
  | JStr s => negb (bool_decide (s = ""))
  | JList l => negb (bool_decide (l = []))
  | JObj kvs => negb (bool_decide (kvs = []))
  end.

(** [repr] and [str] of a decoded JSON value (string escapes aside). *)
Fixpoint py_repr (j : json) : string :=
  match j with
  | JNull => "None"
  | JBool b => if b then "True" else "False"
  | JNum z => pretty z
  | JStr s => "'" +:+ s +:+ "'"
  | JList l =>
      "[" +:+
      (fix go (l : list json) : string :=
         match l with
         | [] => ""
         | [x] => py_repr x
         | x :: r => py_repr x +:+ ", " +:+ go r
         end) l +:+ "]"
  | JObj kvs =>
      "{" +:+
      (fix go (kvs : list (string * json)) : string :=
         match kvs with
         | [] => ""
         | [(k, x)] => "'" +:+ k +:+ "': " +:+ py_repr x
         | (k, x) :: r => "'" +:+ k +:+ "': " +:+ py_repr x +:+ ", " +:+ go r
         end) kvs +:+ "}"
  end.

Definition py_str (j : json) : string :=
  match j with
  | JStr s => s
  | _ => py_repr j
  end.

(** ** Constants ([const.py]) *)

Definition RATE_LIMIT_MAX_CALLS : Z := 50.
Definition RATE_LIMIT_WINDOW : Z := 86400.
Definition TOKEN_REFRESH_MARGIN : Z := 300.

(** ** [api.py]: the sliding-window call ledger ([self._call_log]) *)

Module Ledger.

(** [_prune_call_log]: pop from the left while the head is older than
    the cutoff. *)
Fixpoint prune (cutoff : Z) (log : list Z) : list Z :=
  match log with
  | [] => []
  | t :: r => if t <? cutoff then prune cutoff r else log
  end.

Definition prune_call_log (now : Z) (log : list Z) : list Z :=
  prune (now - RATE_LIMIT_WINDOW) log.

(** [remaining_calls]: returns the pruned ledger and the count. *)
Definition remaining_calls (now : Z) (log : list Z) : list Z * Z :=
  let log' := prune_call_log now log in
  (log', Z.max 0 (RATE_LIMIT_MAX_CALLS - Z.of_nat (length log'))).

(** [_check_rate_limit]; [int(...)] is the identity on whole seconds. *)
Definition check_rate_limit (now : Z) (log : list Z) : list Z * option Exc :=
  let log' := prune_call_log now log in
  if RATE_LIMIT_MAX_CALLS <=? Z.of_nat (length log') then
    match log' with
    | oldest :: _ =>
        (log', Some (RateLimitExceeded (oldest + RATE_LIMIT_WINDOW - now)))
    | [] => (log', None)
    end
  else (log', None).

(** [_record_call] *)
Definition record_call (now : Z) (log : list Z) : list Z := log ++ [now].

End Ledger.

(** An HTTP response as the client sees it: its status, its
    [content_length] and, as [body], the value [resp.json()] decodes it to.
    Answers on which [resp.json()] itself raises (a body that is not JSON,
    or a Content-Type other than JSON) are outside the model. *)
Record HttpResponse := {
  status : Z;
  content_length : Z;
  body : json
}.

(** [BMWCarDataAPI._request].  [t_check] is the time of the rate-limit
    check, [t_done] the time at which the response arrived (the time
    recorded, and the time of the [remaining_calls] read in the debug
    log).  [None] is a connection failure raised by the session before
    any response exists. *)
Definition request (t_check t_done : Z) (resp : option HttpResponse)
    (log : list Z) : list Z * (Exc + json) :=
  match Ledger.check_rate_limit t_check log with
  | (log1, Some e) => (log1, inl e)
  | (log1, None) =>
      match resp with
      | None => (log1, inl ConnectionError)
      | Some r =>
          let log2 := Ledger.record_call t_done log1 in
          let log3 := fst (Ledger.remaining_calls t_done log2) in
          if status r =? 401 then (log3, inl (APIError 401))
          else if status r =? 429 then (log3, inl (APIError 429))
          else if negb ((200 <=? status r) && (status r <? 300))
          then (log3, inl (APIError (status r)))
          else if content_length r =? 0 then (log3, inr JNull)
          else (log3, inr (body r))
      end
  end.

(** ** Data classes of [api.py] *)

(** [VehicleBasicData]; the fields hold what [data.get(...)] returned. *)
Record VehicleBasicData := {
  vin : json;
  brand : json;
  model : json;
  propulsion : json;
  construction_year : json
}.

(** [VehicleBasicData.from_api] *)
Definition basic_from_api (data : json) : Exc + VehicleBasicData :=
  match py_get data "vin" (JStr ""), py_get data "brand" (JStr "BMW"),
        py_get data "model" (JStr "Unknown"), py_get data "propulsion" (JStr ""),
        py_get data "constructionYear" JNull with
  | inr v, inr b, inr m, inr p, inr y =>
      inr {| vin := v; brand := b; model := m; propulsion := p;
             construction_year := y |}
  | _, _, _, _, _ => inl AttributeError
  end.

(** [TelematicEntry] *)
Record TelematicEntry := {
  name : string;
  value : string;
  unit : json;
  timestamp : json
}.

(** [VehicleData]: [rest_updated] and [mqtt_updated] are [float | None]. *)
Record VehicleData := {
  basic : VehicleBasicData;
  telemetry : gmap string TelematicEntry;
  rest_updated : option Z;
  mqtt_updated : option Z
}.

(** [vehicle.telemetry[entry.name] = entry] for each entry in turn. *)
Definition store_entries (entries : list TelematicEntry)
    (tel : gmap string TelematicEntry) : gmap string TelematicEntry :=
  fold_left (fun m e => <[name e := e]> m) entries tel.

(** [BMWCarDataCoordinator._merge_rest_data]; [self.data] is the store. *)
Definition merge_rest_data (now : Z) (vin : string)
    (entries : list TelematicEntry) (data : gmap string VehicleData)
    : gmap string VehicleData :=
  match data !! vin with
  | None => data
  | Some vd =>
      <[vin := {| basic := basic vd;
                  telemetry := store_entries entries (telemetry vd);
                  rest_updated := Some now;
                  mqtt_updated := mqtt_updated vd |}]> data
  end.

(** ** [auth.py]: tokens and the token endpoint *)

(** [TokenResponse] *)
Record TokenResponse := {
  access_token : string;
  refresh_token : string;
  id_token : string;
  expires_in : Z;
  gcid : string;
  token_time : Z
}.

(** [TokenResponse.expiry_timestamp] *)
Definition expiry_timestamp (t : TokenResponse) : Z := token_time t + expires_in t.

(** The JSON object the token endpoint answers with: each field the code
    reads is absent or of the type the code uses it at. *)
Record TokenBody := {
  tb_access_token : option string;
  tb_refresh_token : option string;
  tb_id_token : option string;
  tb_expires_in : option Z;
  tb_gcid : option string;
  tb_error : option string;
  tb_error_description : option string
}.

(** A token-endpoint answer: status and [resp.json(content_type=None)],
    which is [None] on an empty body. *)
Definition TokenHttp : Type := (Z * option TokenBody)%type.

Definition get_default {A} (o : option A) (d : A) : A :=
  match o with Some x => x | None => d end.

(** [body["key"]]: [KeyError] when absent. *)
Definition get_required {A} (o : option A) : Exc + A :=
  match o with Some x => inr x | None => inl KeyError end.

(** What [resp.json(content_type=None)] makes of a token-endpoint body:
    a JSON object; another JSON value (aiohttp gives [None] for an empty
    body), on which [body["key"]] raises [TypeError] and [body.get]
    raises [AttributeError] alike; or a body that is not JSON, on which
    [resp.json] itself raises. *)
Inductive TokenPayload :=
| TPObject (b : TokenBody)
| TPNonObject
| TPNotJson.

(** [BMWAuth.poll_for_token]; [code_verifier] is [self._code_verifier]
    ([None] or [""] are both falsy); [now] is the [time.time()] read
    when the answer is a success. *)
Definition poll_for_token (code_verifier : option string) (device_code : string)
    (now : Z) (resp : Z * TokenPayload) : Exc + TokenResponse :=
  match code_verifier with
  | None | Some "" => inl AuthError
  | Some _ =>
      let (st, p) := resp in
      match p with
      | TPNotJson => inl JSONDecodeError
      | _ =>
      if st =? 200 then
        match p with
        | TPNotJson => inl JSONDecodeError
        | TPNonObject => inl TypeError
        | TPObject b =>
            match get_required (tb_access_token b), get_required (tb_refresh_token b) with
            | inr a, inr r =>
                inr {| access_token := a; refresh_token := r;
                       id_token := get_default (tb_id_token b) "";
                       expires_in := get_default (tb_expires_in b) 3599;
                       gcid := get_default (tb_gcid b) "";
                       token_time := now |}
            | inl e, _ => inl e
            | _, inl e => inl e
            end
        end
      else
        match p with
        | TPNotJson => inl JSONDecodeError
        | TPNonObject => inl AttributeError
        | TPObject b =>
            let error := get_default (tb_error b) "" in
            if bool_decide (error = "authorization_pending") || (st =? 403)
            then inl AuthorizationPending
            else if bool_decide (error = "slow_down") then inl SlowDown
            else if st =? 401 then inl DeviceCodeExpired
            else inl AuthError
        end
      end
  end.

(** [BMWAuth.refresh_tokens] *)
Definition refresh_tokens (refresh_token_in : string) (now : Z) (resp : TokenHttp)
    : Exc + TokenResponse :=
  let (st, ob) := resp in
  if st =? 200 then
    match ob with
    | None => inl TypeError
    | Some b =>
        match get_required (tb_access_token b) with
        | inl e => inl e
        | inr a =>
            inr {| access_token := a;
                   refresh_token := get_default (tb_refresh_token b) refresh_token_in;
                   id_token := get_default (tb_id_token b) "";
                   expires_in := get_default (tb_expires_in b) 3599;
                   gcid := get_default (tb_gcid b) "";
                   token_time := now |}
        end
    end
  else
    match ob with
    | None => inl AttributeError
    | Some _ => inl TokenRefreshFailed
    end.

(** ** Telemetry parsing shared by the REST and the stream paths *)

(** One [descriptor: {value, unit, timestamp}] item: skipped unless the
    payload is a dict with a non-[None] value. *)
Definition entry_of (descriptor : string) (dp : json) : option TelematicEntry :=
  match dp with
  | JObj kvs =>
      match assoc_get "value" kvs with
      | None | Some JNull => None
      | Some v =>
          Some {| name := descriptor; value := py_str v;
                  unit := get_default (assoc_get "unit" kvs) JNull;
                  timestamp := get_default (assoc_get "timestamp" kvs) (JStr "") |}
      end
  | _ => None
  end.

Definition entries_of (kvs : list (string * json)) : list TelematicEntry :=
  omap (fun kv => entry_of kv.1 kv.2) kvs.

(** [BMWCarDataAPI.get_telematic_data] after [_request] returned [result]. *)
Definition parse_telematic (result : json) : Exc + list TelematicEntry :=
  if negb (truthy result) then inr []
  else match py_get result "telematicData" (JObj []) with
       | inl e => inl e
       | inr (JObj kvs) => inr (entries_of kvs)
       | inr _ => inr []
       end.

(** [BMWCarDataAPI.get_telematic_data]; [server] answers each path. *)
Definition get_telematic_data (t_check t_done : Z)
    (server : string -> option HttpResponse) (vin container_id : string)
    (log : list Z) : list Z * (Exc + list TelematicEntry) :=
  let (log', r) := request t_check t_done
                     (server ("/customers/vehicles/" +:+ vin +:+ "/telematicData?containerId=" +:+ container_id))
                     log in
  match r with
  | inl e => (log', inl e)
  | inr result => (log', parse_telematic result)
  end.

(** ** [coordinator.py] *)

(** [_ensure_valid_token]: the list holds the refresh tokens sent to the
    refresh endpoint ([resp] is its answer), so an empty list means no
    refresh call was made. *)
Definition ensure_valid_token (now : Z) (tokens : TokenResponse) (resp : TokenHttp)
    : list string * (Exc + TokenResponse) :=
  if now <? expiry_timestamp tokens - TOKEN_REFRESH_MARGIN then ([], inr tokens)
  else
    ([refresh_token tokens],
     match refresh_tokens (refresh_token tokens) now resp with
     | inl TokenRefreshFailed => inl ConfigEntryAuthFailed
     | r => r
     end).

Section Polling.

(** The API client state threaded through the calls, and
    [self._api.get_telematic_data(vin, container_id)] with the container
    fixed. *)
Variable S : Type.
Variable fetch : S -> string -> S * (Exc + list TelematicEntry).
Variable now : Z.

(** [_fetch_telemetry]: [inr tt] is a normal return. *)
Definition fetch_telemetry (s : S) (data : gmap string VehicleData) (vin : string)
    : S * gmap string VehicleData * (Exc + Datatypes.unit) :=
  match fetch s vin with
  | (s', inr entries) => (s', merge_rest_data now vin entries data, inr tt)
  | (s', inl (RateLimitExceeded r)) => (s', data, inl (RateLimitExceeded r))
  | (s', inl (APIError st)) =>
      if st =? 401 then (s', data, inl ConfigEntryAuthFailed)
      else (s', data, inr tt)
  | (s', inl _) => (s', data, inr tt)
  end.

(** The per-vehicle loop of [_async_update_data] over [self._vehicles]. *)
Fixpoint update_vehicles (s : S) (data : gmap string VehicleData)
    (vins : list string) : S * gmap string VehicleData * (Exc + Datatypes.unit) :=
  match vins with
  | [] => (s, data, inr tt)
  | v :: vs =>
      if decide (v = "") then update_vehicles s data vs
      else
        match fetch_telemetry s data v with
        | (s', data', inl (RateLimitExceeded _)) => (s', data', inr tt)
        | (s', data', inl e) => (s', data', inl e)
        | (s', data', inr _) => update_vehicles s' data' vs
        end
  end.

End Polling.

(** [_on_mqtt_message] *)
Definition on_mqtt_message (now : Z) (vin : string) (payload : json)
    (data : gmap string VehicleData) : Exc + gmap string VehicleData :=
  match py_get payload "vin" (JStr vin) with
  | inl e => inl e
  | inr msg_vin =>
      match msg_vin with
      | JList _ | JObj _ => inl TypeError
      | JStr k =>
          match data !! k with
          | None => inr data
          | Some vehicle =>
              match py_get payload "data" JNull with
              | inl e => inl e
              | inr d =>
                  match (if truthy d then d else JObj []) with
                  | JObj kvs =>
                      inr (<[k := {| basic := basic vehicle;
                                     telemetry := store_entries (entries_of kvs) (telemetry vehicle);
                                     rest_updated := rest_updated vehicle;
                                     mqtt_updated := Some now |}]> data)
                  | _ => inr data
                  end
              end
          end
      | _ => inr data
      end
  end.

(** [topic.split("/")] *)
Fixpoint split_go (c : Ascii.ascii) (s acc : string) : list string :=
  match s with
  | EmptyString => [acc]
  | String a r =>
      if decide (a = c) then acc :: split_go c r ""
      else split_go c r (acc +:+ String a EmptyString)
  end.

Definition split_slash (s : string) : list string := split_go "/"%char s "".

(** [BMWMQTTStream._handle_message] with the coordinator's callback: the
    payload is already decoded; an exception from the callback is logged
    and the store stays as it was. *)
Definition handle_message (now : Z) (topic : string) (payload : json)
    (data : gmap string VehicleData) : gmap string VehicleData :=
  match split_slash topic with
  | _ :: v :: _ =>
      match on_mqtt_message now v payload data with
      | inl _ => data
      | inr data' => data'
      end
  | _ => data
  end.

(** ** Vehicle discovery ([api.py]) *)

(** The placeholder identity of [discover_vehicles]. *)
Definition placeholder (v : json) : VehicleBasicData :=
  {| vin := v; brand := JStr "BMW"; model := JStr "Unknown";
     propulsion := JStr ""; construction_year := JNull |}.

(** [basic.vin = vin] *)
Definition set_vin (v : json) (b : VehicleBasicData) : VehicleBasicData :=
  {| vin := v; brand := brand b; model := model b; propulsion := propulsion b;
     construction_year := construction_year b |}.

Section Discovery.

(** The client state, [get_vehicle_mappings] and [get_vehicle_basic_data]. *)
Variable S : Type.
Variable get_mappings : S -> S * (Exc + list json).
Variable get_basic : S -> json -> S * (Exc + VehicleBasicData).

(** The body of the loop of [discover_vehicles]: only [APIError] is caught. *)
Definition discover_one (s : S) (v : json) : S * (Exc + VehicleBasicData) :=
  match get_basic s v with
  | (s', inr b) => (s', inr (set_vin v b))
  | (s', inl (APIError _)) => (s', inr (placeholder v))
  | (s', inl e) => (s', inl e)
  end.

Fixpoint discover_loop (s : S) (vins : list json)
    : S * (Exc + list VehicleBasicData) :=
  match vins with
  | [] => (s, inr [])
  | v :: vs =>
      match discover_one s v with
      | (s', inl e) => (s', inl e)
      | (s', inr b) =>
          match discover_loop s' vs with
          | (s'', inl e) => (s'', inl e)
          | (s'', inr bs) => (s'', inr (b :: bs))
          end
      end
  end.

(** [BMWCarDataAPI.discover_vehicles] *)
Definition discover_vehicles (s : S) : S * (Exc + list VehicleBasicData) :=
  match get_mappings s with
  | (s', inl e) => (s', inl e)
  | (s', inr vins) => discover_loop s' vins
  end.

End Discovery.

(** Iterating over a decoded JSON value, as [for item in items] does. *)
Definition py_iter (j : json) : Exc + list json :=
  match j with
  | JList l => inr l
  | JObj kvs => inr (map (fun kv => JStr kv.1) kvs)
  | JStr s => inr (map (fun c => JStr (String c EmptyString)) (String.list_ascii_of_string s))
  | _ => inl TypeError
  end.

(** The VIN extraction of [get_vehicle_mappings]. *)
Definition vins_of_items (items : list json) : list json :=
  omap (fun item =>
          match item with
          | JStr _ => Some item
          | JObj kvs => assoc_get "vin" kvs
          | _ => None
          end) items.

(** [get_vehicle_mappings], every request made at time [now]. *)
Definition api_get_mappings (now : Z) (server : string -> option HttpResponse)
    (log : list Z) : list Z * (Exc + list json) :=
  match request now now (server "/customers/vehicles/mappings") log with
  | (log', inl e) => (log', inl e)
  | (log', inr result) =>
      let items := match result with
                   | JList l => inr l
                   | _ => match py_get result "mappings" (JList []) with
                          | inl e => inl e
                          | inr m => py_iter m
                          end
                   end in
      match items with
      | inl e => (log', inl e)
      | inr l => (log', inr (vins_of_items l))
      end
  end.

(** [get_vehicle_basic_data] *)
Definition api_get_basic (now : Z) (server : string -> option HttpResponse)
    (log : list Z) (v : json) : list Z * (Exc + VehicleBasicData) :=
  match request now now (server ("/customers/vehicles/" +:+ py_str v +:+ "/basicData")) log with
  | (log', inl e) => (log', inl e)
  | (log', inr result) => (log', basic_from_api result)
  end.

(** ** [config_flow.py]: [_poll_for_authorization] *)

(** [polls] are the successive outcomes of [poll_for_token], each with
    the time the request took; the clock is [loop.time()].  The result is
    [None] when the given outcomes run out, and the list holds the time at
    which each poll was sent. *)
Fixpoint poll_loop (deadline clock interval : Z)
    (polls : list (Z * (Exc + TokenResponse)))
    : option (Exc + TokenResponse) * list Z :=
  if clock <? deadline then
    let t := clock + interval in
    match polls with
    | [] => (None, [])
    | (lat, r) :: rest =>
        let (res, times) :=
          match r with
          | inr tok => (Some (inr tok), [])
          | inl AuthorizationPending => poll_loop deadline (t + lat) interval rest
          | inl SlowDown => poll_loop deadline (t + lat) (Z.min (interval + 2) 10) rest
          | inl e => (Some (inl e), [])
          end in
        (res, t :: times)
    end
  else (Some (inl DeviceCodeExpired), []).

Definition poll_for_authorization (start expires_in interval : Z)
    (polls : list (Z * (Exc + TokenResponse)))
    : option (Exc + TokenResponse) * list Z :=
  poll_loop (start + expires_in) start interval polls.

(** ** Containers ([api.py], [coordinator.py]) *)

(** [BMWCarDataAPI.create_container] after the body is built: the same
    rate-limit check and call record as [_request], but no prune after the
    record, no 401/429 special cases and no look at the content length:
    the result is [resp.json()] itself, [body r]. *)
Definition create_container (t_check t_done : Z) (resp : option HttpResponse)
    (log : list Z) : list Z * (Exc + json) :=
  match Ledger.check_rate_limit t_check log with
  | (log1, Some e) => (log1, inl e)
  | (log1, None) =>
      match resp with
      | None => (log1, inl ConnectionError)
      | Some r =>
          let log2 := Ledger.record_call t_done log1 in
          if negb ((200 <=? status r) && (status r <? 300))
          then (log2, inl (APIError (status r)))
          else (log2, py_get (body r) "containerId" (JStr ""))
      end
  end.

(** [BMWCarDataAPI.get_containers] after [_request] returned [result]: the
    value the coordinator then iterates over. *)
Definition containers_of (result : json) : Exc + json :=
  match result with
  | JList _ => inr result
  | _ => py_get result "containers" (JList [])
  end.

(** [c.get("containerId") or c.get("id") or c.get("container_id", "")] *)
Definition container_id_of (kvs : list (string * json)) : json :=
  let a := get_default (assoc_get "containerId" kvs) JNull in
  if truthy a then a
  else
    let b := get_default (assoc_get "id" kvs) JNull in
    if truthy b then b else get_default (assoc_get "container_id" kvs) (JStr "").

(** The first dict of the list with a truthy container id. *)
Fixpoint first_container_id (cs : list json) : option json :=
  match cs with
  | [] => None
  | JObj kvs :: r =>
      let cid := container_id_of kvs in
      if truthy cid then Some cid else first_container_id r
  | _ :: r => first_container_id r
  end.

Section Update.

(** The API client state, [get_containers], [create_container] with the
    default name, purpose and descriptors, and [get_telematic_data]. *)
Variable S : Type.
Variable get_containers_call : S -> S * (Exc + json).
Variable create_call : S -> S * (Exc + json).
Variable fetch_data : S -> string -> string -> S * (Exc + list TelematicEntry).

(** [_ensure_container], called while the container id is [""]: the new
    container id ([JStr ""] when every step failed, as the exceptions are
    logged). *)
Definition ensure_container (s : S) : S * json :=
  match get_containers_call s with
  | (s1, inl _) => (s1, JStr "")
  | (s1, inr containers) =>
      match py_iter containers with
      | inl _ => (s1, JStr "")
      | inr cs =>
          match first_container_id cs with
          | Some cid => (s1, JStr (py_str cid))
          | None =>
              match create_call s1 with
              | (s2, inl _) => (s2, JStr "")
              | (s2, inr cid) => (s2, cid)
              end
          end
      end
  end.

(** How [_async_update_data] ends for the framework. *)
Inductive UpdateResult :=
| UpdateOk
| UpdateAuthFailed
| UpdateFailedErr
| UpdateRaised (e : Exc).

(** [_async_update_data]: returns the tokens, the container id, the client
    state, the store and how the cycle ended. *)
Definition async_update_data (now : Z) (tokens : TokenResponse) (resp : TokenHttp)
    (container_id : json) (s : S) (data : gmap string VehicleData)
    (vins : list string)
    : TokenResponse * json * S * gmap string VehicleData * UpdateResult :=
  match snd (ensure_valid_token now tokens resp) with
  | inl ConfigEntryAuthFailed => (tokens, container_id, s, data, UpdateAuthFailed)
  | inl _ => (tokens, container_id, s, data, UpdateFailedErr)
  | inr tokens' =>
      let (s1, cid) := if truthy container_id then (s, container_id)
                       else ensure_container s in
      if negb (truthy cid) then (tokens', cid, s1, data, UpdateOk)
      else
        match update_vehicles S (fun s v => fetch_data s v (py_str cid)) now s1 data vins with
        | (s2, data2, inl ConfigEntryAuthFailed) => (tokens', cid, s2, data2, UpdateAuthFailed)
        | (s2, data2, inl e) => (tokens', cid, s2, data2, UpdateRaised e)
        | (s2, data2, inr _) => (tokens', cid, s2, data2, UpdateOk)
        end
  end.

End Update.

(** ** Stream reconnection ([mqtt_stream.py]) *)

Definition MQTT_RECONNECT_MIN : Z := 5.
Definition MQTT_RECONNECT_MAX : Z := 300.

(** How one pass of [_connect_and_listen] ends: an exception before the
    connection is up, an exception after it came up (which had reset the
    backoff), or a clean return. *)
Inductive ConnOutcome :=
| ConnectFailed
| DroppedAfterConnect
| CleanDisconnect.

(** The waits of [_run_loop] between passes, no stop being requested:
    after a failure it waits [self._backoff], then doubles it up to the
    maximum; a clean pass resets it. *)
Fixpoint reconnect_delays (backoff : Z) (os : list ConnOutcome) : list Z :=
  match os with
  | [] => []
  | ConnectFailed :: r =>
      backoff :: reconnect_delays (Z.min (backoff * 2) MQTT_RECONNECT_MAX) r
  | DroppedAfterConnect :: r =>
      MQTT_RECONNECT_MIN ::
      reconnect_delays (Z.min (MQTT_RECONNECT_MIN * 2) MQTT_RECONNECT_MAX) r
  | CleanDisconnect :: r => reconnect_delays MQTT_RECONNECT_MIN r
  end.

(** The subscription topic of [_connect_and_listen]. *)
Definition telemetry_topic (vin : string) : string :=
  "cardata/" +:+ vin +:+ "/telemetry".

(** ** Persisted config entry ([auth.py], [config_flow.py], [__init__.py]) *)

(** [TokenResponse.as_dict] *)
Definition as_dict (t : TokenResponse) : json :=
  JObj [("access_token", JStr (access_token t));
        ("refresh_token", JStr (refresh_token t));
        ("id_token", JStr (id_token t));
        ("expires_in", JNum (expires_in t));
        ("gcid", JStr (gcid t));
        ("token_time", JNum (token_time t))].

(** A stored value read into a [str] or [int] field of [TokenResponse];
    the model only represents values of the declared type and reports
    any other as [TypeError]. *)
Definition json_string (j : json) : Exc + string :=
  match j with JStr s => inr s | _ => inl TypeError end.

Definition json_int (j : json) : Exc + Z :=
  match j with JNum z => inr z | _ => inl TypeError end.

(** [data["key"]] on a stored dict. *)
Definition py_index (data : json) (k : string) : Exc + json :=
  match data with
  | JObj kvs => match assoc_get k kvs with Some v => inr v | None => inl KeyError end
  | _ => inl TypeError
  end.

Definition bind_exc {A B} (r : Exc + A) (f : A -> Exc + B) : Exc + B :=
  match r with inl e => inl e | inr x => f x end.

(** [TokenResponse.from_dict] *)
Definition from_dict (data : json) : Exc + TokenResponse :=
  bind_exc (bind_exc (py_index data "access_token") json_string) (fun a =>
  bind_exc (bind_exc (py_index data "refresh_token") json_string) (fun r =>
  bind_exc (bind_exc (py_index data "id_token") json_string) (fun i =>
  bind_exc (bind_exc (py_index data "expires_in") json_int) (fun e =>
  bind_exc (bind_exc (py_index data "gcid") json_string) (fun g =>
  bind_exc (bind_exc (py_index data "token_time") json_int) (fun t =>
  inr {| access_token := a; refresh_token := r; id_token := i;
         expires_in := e; gcid := g; token_time := t |})))))).

(** One element of the ["vehicles"] list written by [_create_entry]. *)
Definition vehicle_dict (v : VehicleBasicData) : json :=
  JObj [("vin", vin v); ("brand", brand v); ("model", model v);
        ("propulsion", propulsion v); ("construction_year", construction_year v)].

(** The [data] of [_create_entry]. *)
Definition create_entry_data (client_id : string) (tokens : option TokenResponse)
    (vs : list VehicleBasicData) : json :=
  JObj [("client_id", JStr client_id);
        ("tokens", match tokens with Some t => as_dict t | None => JObj [] end);
        ("vehicles", JList (map vehicle_dict vs))].

(** [{**data, key: v}]: an existing key keeps its place. *)
Fixpoint assoc_set (k : string) (v : json) (kvs : list (string * json))
    : list (string * json) :=
  match kvs with
  | [] => [(k, v)]
  | (k', x) :: r => if decide (k = k') then (k, v) :: r else (k', x) :: assoc_set k v r
  end.

Definition dict_set (k : string) (v : json) (d : json) : json :=
  match d with JObj kvs => JObj (assoc_set k v kvs) | _ => d end.

(** The comprehension of [async_setup_entry] for one stored vehicle. *)
Definition restore_vehicle (v : json) : Exc + VehicleBasicData :=
  bind_exc (py_index v "vin") (fun vn =>
    match v with
    | JObj kvs =>
        inr {| vin := vn;
               brand := get_default (assoc_get "brand" kvs) (JStr "BMW");
               model := get_default (assoc_get "model" kvs) (JStr "Unknown");
               propulsion := get_default (assoc_get "propulsion" kvs) (JStr "");
               construction_year := get_default (assoc_get "construction_year" kvs) JNull |}
    | _ => inl TypeError
    end).

Fixpoint restore_vehicles (vs : list json) : Exc + list VehicleBasicData :=
  match vs with
  | [] => inr []
  | v :: r =>
      bind_exc (restore_vehicle v) (fun b =>
      bind_exc (restore_vehicles r) (fun bs => inr (b :: bs)))
  end.

(** The restoring part of [async_setup_entry]: [None] is its
    [return False], [Some] the tokens and vehicles the coordinator is
    built from. *)
Definition setup_entry (data : json)
    : Exc + option (TokenResponse * list VehicleBasicData) :=
  bind_exc (py_get data "tokens" (JObj [])) (fun token_data =>
  if negb (truthy token_data) then inr None
  else
    bind_exc (from_dict token_data) (fun tokens =>
    bind_exc (py_get data "vehicles" (JList [])) (fun vehicle_list =>
    bind_exc (py_iter vehicle_list) (fun items =>
    bind_exc (restore_vehicles items) (fun vehicles =>
    match vehicles with
    | [] => inr None
    | _ => inr (Some (tokens, vehicles))
    end))))).

(** The shape a store keeps through an update: the same vehicles, each
    with its basic data, the timestamp [stamp] and every telemetry key it
    had. *)
Definition keeps_vehicles (stamp : VehicleData -> option Z)
    (data data' : gmap string VehicleData) : Prop :=
  (forall k, is_Some (data' !! k) <-> is_Some (data !! k)) /\
  (forall k vd, data !! k = Some vd -> exists vd', data' !! k = Some vd' /\
     basic vd' = basic vd /\ stamp vd' = stamp vd /\
     forall n, is_Some (telemetry vd !! n) -> is_Some (telemetry vd' !! n)).

(** ** Auxiliary definitions and sample inputs *)

Definition sample_tokens : TokenResponse :=
  {| access_token := "a"; refresh_token := "r"; id_token := "i";
     expires_in := 3600; gcid := "g"; token_time := 1000 |}.

Definition body_without_refresh : TokenBody :=
  {| tb_access_token := Some "fresh"; tb_refresh_token := None;
     tb_id_token := None; tb_expires_in := Some 3600; tb_gcid := None;
     tb_error := None; tb_error_description := None |}.

Definition error_body (err : string) : TokenBody :=
  {| tb_access_token := None; tb_refresh_token := None; tb_id_token := None;
     tb_expires_in := None; tb_gcid := None; tb_error := Some err;
     tb_error_description := None |}.

Definition body_access_only : TokenBody :=
  {| tb_access_token := Some "a"; tb_refresh_token := None; tb_id_token := None;
     tb_expires_in := None; tb_gcid := None; tb_error := None;
     tb_error_description := None |}.

(** A fetch that answers from a fixed table and counts its calls. *)
Definition table_fetch (tbl : string -> Exc + list TelematicEntry) (calls : nat)
    (v : string) : nat * (Exc + list TelematicEntry) :=
  (S calls, tbl v).

Definition sample_table (v : string) : Exc + list TelematicEntry :=
  if decide (v = "V2") then inl (RateLimitExceeded 10)
  else if decide (v = "V1") then inl (APIError 500) else inr [].

(** The last entry of [es] named [k]. *)
Fixpoint find_last (k : string) (es : list TelematicEntry) : option TelematicEntry :=
  match es with
  | [] => None
  | e :: r =>
      match find_last k r with
      | Some x => Some x
      | None => if decide (name e = k) then Some e else None
      end
  end.

Definition sample_basic : VehicleBasicData := placeholder (JStr "V1").

Definition sample_entry : TelematicEntry :=
  {| name := "vehicle.speed"; value := "50"; unit := JStr "km/h";
     timestamp := JStr "2026-01-01T00:00:00Z" |}.

Definition sample_store : gmap string VehicleData :=
  {[ "V1" := {| basic := sample_basic; telemetry := ∅;
                rest_updated := None; mqtt_updated := None |} ]}.

Definition list_payload : json :=
  JList [JObj [("name", JStr "vehicle.speed"); ("value", JNum 50);
               ("unit", JStr "km/h"); ("timestamp", JStr "2026-01-01T00:00:00Z")]].

Definition nested_payload : json :=
  JObj [("vin", JStr "V1");
        ("data", JObj [("vehicle.speed",
                        JObj [("value", JNum 50); ("unit", JStr "km/h");
                              ("timestamp", JStr "2026-01-01T00:00:00Z")])])].

Definition api_error_or_ok {A} (r : Exc + A) : Prop :=
  match r with
  | inr _ => True
  | inl (APIError _) => True
  | inl _ => False
  end.

Definition sample_server (path : string) : option HttpResponse :=
  if decide (path = "/customers/vehicles/mappings") then
    Some {| status := 200; content_length := 20;
            body := JList [JStr "V1"; JStr "V2"] |}
  else
    Some {| status := 200; content_length := 20;
            body := JObj [("brand", JStr "BMW"); ("model", JStr "i4")] |}.

(** The per-VIN fetches, run in sequence from [s], raise nothing but
    [APIError]. *)
Fixpoint fetches_ok {S : Type} (gb : S -> json -> S * (Exc + VehicleBasicData))
    (s : S) (vins : list json) : Prop :=
  match vins with
  | [] => True
  | v :: vs => api_error_or_ok (snd (gb s v)) /\ fetches_ok gb (fst (gb s v)) vs
  end.

Definition failing_basic_server (path : string) : option HttpResponse :=
  if decide (path = "/customers/vehicles/mappings") then
    Some {| status := 200; content_length := 20;
            body := JList [JStr "V1"; JStr "V2"; JStr "V3"] |}
  else if decide (path = "/customers/vehicles/V2/basicData") then
    Some {| status := 500; content_length := 5; body := JNull |}
  else
    Some {| status := 200; content_length := 20;
            body := JObj [("brand", JStr "BMW"); ("model", JStr "i4")] |}.

Definition issued_tokens : TokenResponse :=
  {| access_token := "a"; refresh_token := "r"; id_token := "i";
     expires_in := 3599; gcid := "g"; token_time := 10 |}.

(** A client state that counts calls. *)
Definition count_call (r : Exc + json) (n : nat) : nat * (Exc + json) := (S n, r).

Definition no_fetch (n : nat) (v c : string) : nat * (Exc + list TelematicEntry) :=
  (S n, inr []).

(** * Properties *)

(** ** The call ledger *)

Lemma prune_app_last (cutoff t : Z) (l : list Z) :
  cutoff <= t -> Ledger.prune cutoff (l ++ [t]) = Ledger.prune cutoff l ++ [t].
Proof.
  intros Hle. induction l as [|x r IH]; simpl.
  - destruct (Z.ltb_spec t cutoff); [lia | reflexivity].
  - destruct (x <? cutoff); [exact IH | reflexivity].
Qed.

Lemma check_rate_limit_ok (now : Z) (log : list Z) :
  Z.of_nat (length (Ledger.prune_call_log now log)) < RATE_LIMIT_MAX_CALLS ->
  Ledger.check_rate_limit now log = (Ledger.prune_call_log now log, None).
Proof.
  intros H. unfold Ledger.check_rate_limit.
  destruct (Z.leb_spec RATE_LIMIT_MAX_CALLS (Z.of_nat (length (Ledger.prune_call_log now log))));
    [lia | reflexivity].
Qed.

(** C1: with N timestamps left in the ledger after pruning and N <= 50,
    [remaining_calls] is 50 - N; with N >= 50 a request raises
    [RateLimitExceeded] with reset time oldest + 86400 - now, whatever
    the server would have answered, and records nothing. *)
Lemma remaining_calls_and_rate_limit (now : Z) (log : list Z) :
  let log' := Ledger.prune_call_log now log in
  (Z.of_nat (length log') <= 50 ->
   snd (Ledger.remaining_calls now log) = 50 - Z.of_nat (length log')) /\
  (50 <= Z.of_nat (length log') ->
   exists oldest rest, log' = oldest :: rest /\
     forall (t_done : Z) (resp : option HttpResponse),
       request now t_done resp log =
       (log', inl (RateLimitExceeded (oldest + RATE_LIMIT_WINDOW - now)))).
Proof.
  cbv zeta. split.
  - intros H. unfold Ledger.remaining_calls, RATE_LIMIT_MAX_CALLS; simpl. lia.
  - intros H.
    destruct (Ledger.prune_call_log now log) as [|oldest rest] eqn:Hp;
      [simpl in H; lia |].
    exists oldest, rest. split; [reflexivity |].
    intros t_done resp. unfold request, Ledger.check_rate_limit.
    rewrite Hp.
    destruct (Z.leb_spec RATE_LIMIT_MAX_CALLS (Z.of_nat (length (oldest :: rest))));
      [reflexivity | unfold RATE_LIMIT_MAX_CALLS in *; lia].
Qed.

Lemma remaining_calls_and_rate_limit_witness :
  snd (Ledger.remaining_calls 100 [1; 2; 3]) = 47 /\
  request 100000 100000 None (repeat 100000 50) =
    (repeat 100000 50, inl (RateLimitExceeded 86400)).
Proof.
  destruct (remaining_calls_and_rate_limit 100 [1; 2; 3]) as [H1 _].
  destruct (remaining_calls_and_rate_limit 100000 (repeat 100000 50)) as [_ H2].
  split.
  - rewrite H1; vm_compute; [reflexivity | discriminate].
  - destruct H2 as (oldest & rest & Hp & Hr); [vm_compute; discriminate |].
    rewrite Hr. vm_compute in Hp. injection Hp as <- <-.
    vm_compute. reflexivity.
Defined.

(** C7: a request that passes the rate-limit check and gets any response
    ends with the response time appended to the (pruned) ledger, whatever
    the status; every non-2xx status is raised as [APIError] with that
    status. *)
Lemma request_records_every_completion (t_check t_done : Z) (r : HttpResponse)
    (log : list Z) :
  let log1 := Ledger.prune_call_log t_check log in
  Z.of_nat (length log1) < RATE_LIMIT_MAX_CALLS ->
  exists res,
    request t_check t_done (Some r) log =
      (Ledger.prune_call_log t_done log1 ++ [t_done], res) /\
    ((200 <= status r < 300 -> exists j, res = inr j) /\
     (~ (200 <= status r < 300) -> res = inl (APIError (status r)))).
Proof.
  cbv zeta. intros H. unfold request. rewrite (check_rate_limit_ok _ _ H).
  unfold Ledger.remaining_calls, Ledger.record_call. simpl fst.
  assert (Hp : Ledger.prune_call_log t_done (Ledger.prune_call_log t_check log ++ [t_done])
               = Ledger.prune_call_log t_done (Ledger.prune_call_log t_check log) ++ [t_done])
    by (apply prune_app_last; unfold RATE_LIMIT_WINDOW; lia).
  rewrite !Hp.
  destruct (Z.eqb_spec (status r) 401) as [E401|N401].
  { eexists; split; [reflexivity |]. split; [lia | rewrite E401; reflexivity]. }
  destruct (Z.eqb_spec (status r) 429) as [E429|N429].
  { eexists; split; [reflexivity |]. split; [lia | rewrite E429; reflexivity]. }
  destruct (Z.leb_spec 200 (status r)); destruct (Z.ltb_spec (status r) 300); simpl.
  all: try (eexists; split; [reflexivity |]; split; [lia | reflexivity]).
  destruct (content_length r =? 0);
    (eexists; split; [reflexivity |]; split; [eauto | lia]).
Qed.

Lemma request_records_every_completion_witness :
  request 10 20 (Some {| status := 500; content_length := 3; body := JNull |}) [5] =
    ([5; 20], inl (APIError 500)).
Proof.
  destruct (request_records_every_completion 10 20
              {| status := 500; content_length := 3; body := JNull |} [5])
    as (res & Hreq & _ & Herr).
  - vm_compute. reflexivity.
  - rewrite Hreq, Herr by (simpl; lia). vm_compute. reflexivity.
Defined.

(** ** Tokens *)

(** C3: [_ensure_valid_token] calls the refresh endpoint (with the current
    refresh token) exactly when now >= token_time + expires_in - 300, and
    below that threshold returns the current tokens untouched. *)
Lemma ensure_valid_token_threshold (now : Z) (tokens : TokenResponse)
    (resp : TokenHttp) :
  (fst (ensure_valid_token now tokens resp) = [refresh_token tokens] <->
   token_time tokens + expires_in tokens - 300 <= now) /\
  (fst (ensure_valid_token now tokens resp) = [] <->
   now < token_time tokens + expires_in tokens - 300) /\
  (now < token_time tokens + expires_in tokens - 300 ->
   ensure_valid_token now tokens resp = ([], inr tokens)).
Proof.
  unfold ensure_valid_token, expiry_timestamp, TOKEN_REFRESH_MARGIN.
  destruct (Z.ltb_spec now (token_time tokens + expires_in tokens - 300)); simpl.
  - split; [split; [discriminate | lia] |]. split; [tauto | reflexivity].
  - split; [tauto |]. split; [split; [discriminate | lia] | lia].
Qed.

Lemma ensure_valid_token_threshold_witness :
  ensure_valid_token (1000 + 3600 - 301) sample_tokens (200, None) =
    ([], inr sample_tokens) /\
  fst (ensure_valid_token (1000 + 3600 - 300) sample_tokens (200, None)) = ["r"].
Proof.
  split.
  - apply (ensure_valid_token_threshold (1000 + 3600 - 301) sample_tokens (200, None)).
    simpl. lia.
  - apply (ensure_valid_token_threshold (1000 + 3600 - 300) sample_tokens (200, None)).
    simpl. lia.
Defined.

(** C10: an HTTP 200 answer whose JSON object has an access token but no
    refresh token yields a token set (it does not fail) that keeps the
    caller's refresh token, with the answer's access token and
    [token_time = now]; and every token set [refresh_tokens] returns comes
    from an HTTP 200 answer, carries that answer's access token and
    [token_time = now], and keeps the caller's refresh token when the
    answer has none. *)
Lemma refresh_tokens_keeps_refresh_token (rt : string) (now : Z) :
  (forall b a, tb_access_token b = Some a -> tb_refresh_token b = None ->
     exists ts, refresh_tokens rt now (200, Some b) = inr ts /\
       refresh_token ts = rt /\ access_token ts = a /\ token_time ts = now) /\
  (forall resp ts, refresh_tokens rt now resp = inr ts ->
     exists b, resp = (200, Some b) /\
       tb_access_token b = Some (access_token ts) /\
       token_time ts = now /\
       (tb_refresh_token b = None -> refresh_token ts = rt)).
Proof.
  split.
  - intros b a Ha Hr. unfold refresh_tokens. simpl. rewrite Ha. simpl.
    eexists. split; [reflexivity |]. simpl. rewrite Hr. auto.
  - intros [st ob] ts. unfold refresh_tokens.
    destruct (Z.eqb_spec st 200) as [->|Hne].
    + destruct ob as [b|]; [| discriminate].
      destruct (tb_access_token b) as [a|] eqn:Ha; simpl; [| discriminate].
      intros [= <-]. exists b. simpl.
      split; [reflexivity |]. split; [exact Ha |]. split; [reflexivity |].
      intros ->. reflexivity.
    + destruct ob; discriminate.
Qed.

Lemma refresh_tokens_keeps_refresh_token_witness :
  exists ts, refresh_tokens "old" 42 (200, Some body_without_refresh) = inr ts /\
    refresh_token ts = "old" /\ access_token ts = "fresh" /\ token_time ts = 42.
Proof.
  exact (proj1 (refresh_tokens_keeps_refresh_token "old" 42) body_without_refresh "fresh"
           eq_refl eq_refl).
Defined.

(** ** One poll of the token endpoint *)

(** C4 (counterexample): an HTTP 200 answer without a refresh token is not
    a success but a [KeyError], and an HTTP 401 answer whose error is
    [slow_down] is classified as [SlowDown], not [DeviceCodeExpired]. *)
Lemma poll_for_token_classification_counterexample :
  poll_for_token (Some "verifier") "dc" 7 (200, TPObject body_access_only) = inl KeyError /\
  poll_for_token (Some "verifier") "dc" 7 (401, TPObject (error_body "slow_down")) = inl SlowDown.
Proof. split; reflexivity. Qed.

(** C4 (amended): without a code verifier a poll raises [AuthError];
    with one, an answer whose body is not JSON raises [JSONDecodeError]
    whatever its status; HTTP 200 with a JSON object holding access and
    refresh tokens is a success with [token_time = now] (an object lacking
    either raises [KeyError], a body that is not an object [TypeError]);
    a non-200 answer whose body is not a JSON object (an empty body
    included) raises [AttributeError]; otherwise error
    [authorization_pending] or HTTP 403 is [AuthorizationPending]; otherwise
    error [slow_down] is [SlowDown]; otherwise HTTP 401 is
    [DeviceCodeExpired]; any other answer is [AuthError]. *)
Lemma poll_for_token_classification (cv dc : string) (now st : Z) :
  cv <> "" ->
  (forall ocv resp, (ocv = None \/ ocv = Some "") ->
     poll_for_token ocv dc now resp = inl AuthError) /\
  poll_for_token (Some cv) dc now (st, TPNotJson) = inl JSONDecodeError /\
  (st = 200 -> poll_for_token (Some cv) dc now (st, TPNonObject) = inl TypeError) /\
  (st <> 200 -> poll_for_token (Some cv) dc now (st, TPNonObject) = inl AttributeError) /\
  forall b : TokenBody,
  let r := poll_for_token (Some cv) dc now (st, TPObject b) in
  let err := get_default (tb_error b) "" in
  (st = 200 -> forall a rt, tb_access_token b = Some a -> tb_refresh_token b = Some rt ->
     exists ts, r = inr ts /\ access_token ts = a /\ refresh_token ts = rt /\
                token_time ts = now) /\
  (st = 200 -> (tb_access_token b = None \/ tb_refresh_token b = None) -> r = inl KeyError) /\
  (st <> 200 -> (err = "authorization_pending" \/ st = 403) -> r = inl AuthorizationPending) /\
  (st <> 200 -> st <> 403 -> err <> "authorization_pending" -> err = "slow_down" ->
     r = inl SlowDown) /\
  (st = 401 -> err <> "authorization_pending" -> err <> "slow_down" ->
     r = inl DeviceCodeExpired) /\
  (st <> 200 -> st <> 403 -> st <> 401 -> err <> "authorization_pending" ->
     err <> "slow_down" -> r = inl AuthError).
Proof.
  intros Hcv. destruct cv as [|c cv']; [congruence |].
  split; [intros ocv [st' p] [-> | ->]; reflexivity |].
  split; [reflexivity |].
  split; [intros ->; reflexivity |].
  split; [intros Hst; unfold poll_for_token; apply Z.eqb_neq in Hst; rewrite Hst; reflexivity |].
  intros b. cbv zeta. unfold poll_for_token.
  repeat split.
  - intros -> a rt Ha Hr. simpl. rewrite Ha, Hr. simpl.
    eexists; split; [reflexivity | repeat split].
  - intros -> [H | H]; simpl; rewrite H;
      [reflexivity | destruct (tb_access_token b); reflexivity].
  - intros Hst Herr. apply Z.eqb_neq in Hst. rewrite Hst.
    destruct Herr as [-> | ->]; [rewrite bool_decide_true by reflexivity; reflexivity |].
    rewrite Z.eqb_refl, orb_true_r. reflexivity.
  - intros Hst H403 Hp Hs. apply Z.eqb_neq in Hst, H403. rewrite Hst, H403.
    rewrite bool_decide_false by exact Hp. simpl.
    rewrite bool_decide_true by exact Hs. reflexivity.
  - intros -> Hp Hs. simpl.
    rewrite bool_decide_false by exact Hp. simpl.
    rewrite bool_decide_false by exact Hs. reflexivity.
  - intros Hst H403 H401 Hp Hs. apply Z.eqb_neq in Hst, H403, H401.
    rewrite Hst, H403, H401.
    rewrite bool_decide_false by exact Hp. simpl.
    rewrite bool_decide_false by exact Hs. reflexivity.
Qed.

Lemma poll_for_token_classification_witness :
  poll_for_token (Some "verifier") "dc" 7 (401, TPObject (error_body "expired_token")) =
    inl DeviceCodeExpired /\
  poll_for_token (Some "verifier") "dc" 7 (401, TPNonObject) = inl AttributeError.
Proof.
  destruct (poll_for_token_classification "verifier" "dc" 7 401)
    as (_ & _ & _ & Hn & H); [discriminate |].
  split.
  - destruct (H (error_body "expired_token")) as (_ & _ & _ & _ & H401 & _).
    apply H401; [reflexivity | discriminate | discriminate].
  - apply Hn. discriminate.
Defined.

(** ** The coordinator's per-vehicle poll loop *)

(** C2: in one poll cycle an empty VIN is skipped; a [RateLimitExceeded]
    from a vehicle's fetch ends the cycle normally without fetching the
    remaining vehicles; an HTTP 401 ends it with [ConfigEntryAuthFailed];
    any other error is absorbed and the loop goes on with the remaining
    vehicles (as it does after a successful fetch, once merged). *)
Lemma update_vehicles_error_policy (S : Type)
    (fetch : S -> string -> S * (Exc + list TelematicEntry)) (now : Z)
    (s : S) (data : gmap string VehicleData) (v : string) (vs : list string) :
  update_vehicles S fetch now s data ("" :: vs) = update_vehicles S fetch now s data vs /\
  (v <> "" -> forall s' r, fetch s v = (s', inl (RateLimitExceeded r)) ->
     update_vehicles S fetch now s data (v :: vs) = (s', data, inr tt)) /\
  (v <> "" -> forall s', fetch s v = (s', inl (APIError 401)) ->
     update_vehicles S fetch now s data (v :: vs) = (s', data, inl ConfigEntryAuthFailed)) /\
  (v <> "" -> forall s' e, fetch s v = (s', inl e) ->
     (forall r, e <> RateLimitExceeded r) -> e <> APIError 401 ->
     update_vehicles S fetch now s data (v :: vs) = update_vehicles S fetch now s' data vs) /\
  (v <> "" -> forall s' es, fetch s v = (s', inr es) ->
     update_vehicles S fetch now s data (v :: vs) =
     update_vehicles S fetch now s' (merge_rest_data now v es data) vs).
Proof.
  split; [reflexivity |].
  split; [| split; [| split]]; intros Hv; simpl; rewrite decide_False by exact Hv;
    unfold fetch_telemetry.
  - intros s' r Hf. rewrite Hf. reflexivity.
  - intros s' Hf. rewrite Hf. reflexivity.
  - intros s' e Hf Hrl H401. rewrite Hf.
    destruct e as [r|st| | | | | | | | | | |]; try reflexivity.
    + exfalso; exact (Hrl r eq_refl).
    + destruct (Z.eqb_spec st 401) as [->|]; [congruence | reflexivity].
  - intros s' es Hf. rewrite Hf. reflexivity.
Qed.

Lemma update_vehicles_error_policy_witness :
  update_vehicles nat (table_fetch sample_table) 0 0%nat ∅ [""; "V1"; "V2"; "V3"] =
    (2%nat, ∅, inr tt).
Proof.
  destruct (update_vehicles_error_policy nat (table_fetch sample_table) 0 0%nat ∅ "V1" ["V2"; "V3"])
    as (_ & _ & _ & Hother & _).
  destruct (update_vehicles_error_policy nat (table_fetch sample_table) 0 0%nat ∅ "" ["V1"; "V2"; "V3"])
    as (Hskip & _).
  destruct (update_vehicles_error_policy nat (table_fetch sample_table) 0 1%nat ∅ "V2" ["V3"])
    as (_ & Hrl & _ & _ & _).
  rewrite Hskip.
  rewrite (Hother ltac:(discriminate) 1%nat (APIError 500) eq_refl
             ltac:(discriminate) ltac:(discriminate)).
  apply (Hrl ltac:(discriminate) 2%nat 10 eq_refl).
Defined.

(** ** Merging telemetry *)

Lemma store_entries_lookup (es : list TelematicEntry)
    (m : gmap string TelematicEntry) (k : string) :
  store_entries es m !! k =
  match find_last k es with Some e => Some e | None => m !! k end.
Proof.
  revert m. induction es as [|e r IH]; intros m; simpl; [reflexivity |].
  unfold store_entries in IH |- *. simpl. rewrite IH.
  destruct (find_last k r); [reflexivity |].
  destruct (decide (name e = k)) as [<-|Hne].
  - apply lookup_insert_eq.
  - apply lookup_insert_ne. exact Hne.
Qed.

Lemma store_entries_idem (es : list TelematicEntry) (m : gmap string TelematicEntry) :
  store_entries es (store_entries es m) = store_entries es m.
Proof.
  apply map_eq. intros k. rewrite !store_entries_lookup.
  destruct (find_last k es); reflexivity.
Qed.

(** C8: merging an entry stores it under its descriptor whatever was
    there (the entry, its timestamp included, is stored as is), and
    merging the same entries twice gives the store a single merge at the
    later time gives: only [rest_updated] tells the two apart. *)
Lemma merge_rest_data_overwrite_idempotent (t1 t2 : Z) (vin : string)
    (es : list TelematicEntry) (data : gmap string VehicleData) :
  (forall (vd : VehicleData) (e : TelematicEntry), data !! vin = Some vd ->
     exists vd', merge_rest_data t1 vin [e] data !! vin = Some vd' /\
       telemetry vd' !! name e = Some e /\ rest_updated vd' = Some t1) /\
  merge_rest_data t2 vin es (merge_rest_data t1 vin es data) =
  merge_rest_data t2 vin es data.
Proof.
  split.
  - intros vd e Hvd. unfold merge_rest_data. rewrite Hvd.
    eexists. rewrite lookup_insert_eq. split; [reflexivity |].
    split; [| reflexivity]. cbn [telemetry]. rewrite store_entries_lookup. simpl.
    rewrite decide_True by reflexivity. reflexivity.
  - unfold merge_rest_data. destruct (data !! vin) as [vd|] eqn:Hvd.
    + rewrite lookup_insert_eq. cbn [telemetry basic rest_updated mqtt_updated]. rewrite store_entries_idem.
      apply insert_insert_eq.
    + rewrite Hvd. reflexivity.
Qed.

Lemma merge_rest_data_overwrite_idempotent_witness :
  exists vd', merge_rest_data 5 "V1" [sample_entry] sample_store !! "V1" = Some vd' /\
    telemetry vd' !! "vehicle.speed" = Some sample_entry.
Proof.
  destruct (merge_rest_data_overwrite_idempotent 5 5 "V1" [sample_entry] sample_store)
    as [H _].
  destruct (H _ sample_entry eq_refl) as (vd' & H1 & H2 & _).
  exists vd'. split; [exact H1 | exact H2].
Defined.

(** ** Stream messages *)

(** C5 (the list shape is dropped): a payload decoded as a JSON list
    reaches [_on_mqtt_message], whose [payload.get("vin", vin)] raises
    [AttributeError]; [_handle_message] logs it and no entry is merged. *)
Lemma handle_message_list_payload_dropped (now : Z) (topic : string)
    (l : list json) (data : gmap string VehicleData) :
  handle_message now topic (JList l) data = data.
Proof.
  unfold handle_message. destruct (split_slash topic) as [|? [|? ?]]; reflexivity.
Qed.

(** The nested shape is merged (with [mqtt_updated] set). *)
Example handle_message_nested_payload :
  handle_message 9 "cardata/V1/telemetry" nested_payload sample_store =
  {[ "V1" := {| basic := sample_basic;
                telemetry := {[ "vehicle.speed" := sample_entry ]};
                rest_updated := None; mqtt_updated := Some 9 |} ]}.
Proof. vm_compute. reflexivity. Qed.

(** ** Vehicle discovery *)

(** C6 (counterexample): with 48 calls already in the ledger, the mapping
    call and the first basic-data call use up the budget; the second
    basic-data call raises [RateLimitExceeded], which is not an
    [APIError], so the whole discovery fails instead of giving V2 a
    placeholder. *)
Lemma discover_vehicles_rate_limit_aborts :
  snd (discover_vehicles (list Z) (api_get_mappings 1000 sample_server)
         (api_get_basic 1000 sample_server) (repeat 1000 48)) =
  inl (RateLimitExceeded 86400).
Proof. vm_compute. reflexivity. Qed.

Lemma discover_loop_ok (S : Type) (gb : S -> json -> S * (Exc + VehicleBasicData))
    (vins : list json) :
  forall s, fetches_ok gb s vins ->
  exists s2 ids, discover_loop S gb s vins = (s2, inr ids) /\
    Forall2 (fun v b => vin b = v) vins ids.
Proof.
  induction vins as [|v vs IH]; intros s Hok; simpl.
  - exists s, []. split; [reflexivity | constructor].
  - unfold discover_one. simpl in Hok.
    destruct (gb s v) as [s' [e|b]]; simpl in Hok; destruct Hok as [Hv Hrest].
    + destruct e; try contradiction.
      destruct (IH s' Hrest) as (s2 & ids & Heq & Hf).
      rewrite Heq. exists s2, (placeholder v :: ids). split; [reflexivity |].
      constructor; [reflexivity | exact Hf].
    + destruct (IH s' Hrest) as (s2 & ids & Heq & Hf).
      rewrite Heq. exists s2, (set_vin v b :: ids). split; [reflexivity |].
      constructor; [reflexivity | exact Hf].
Qed.

(** C6 (amended): when the mapping call returns N VINs and the per-VIN
    basic-data fetches, in turn, each either succeed or raise [APIError],
    discovery returns N identities, one per VIN and in order; a VIN whose
    fetch raised [APIError] gets the placeholder (brand "BMW", model
    "Unknown", propulsion ""); any other exception of a per-VIN fetch
    (such as [RateLimitExceeded]) aborts the discovery. *)
Lemma discover_vehicles_partial_failure (S : Type) (gm : S -> S * (Exc + list json))
    (gb : S -> json -> S * (Exc + VehicleBasicData)) :
  (forall s s1 vins, gm s = (s1, inr vins) -> fetches_ok gb s1 vins ->
     exists s2 ids, discover_vehicles S gm gb s = (s2, inr ids) /\
       Forall2 (fun v b => vin b = v) vins ids) /\
  (forall s v s' st, gb s v = (s', inl (APIError st)) ->
     discover_one S gb s v = (s', inr (placeholder v))) /\
  (forall s v vs s' e, gb s v = (s', inl e) -> (forall st, e <> APIError st) ->
     discover_loop S gb s (v :: vs) = (s', inl e)).
Proof.
  split; [| split].
  - intros s s1 vins Hm Hok. unfold discover_vehicles. rewrite Hm.
    exact (discover_loop_ok S gb vins s1 Hok).
  - intros s v s' st H. unfold discover_one. rewrite H. reflexivity.
  - intros s v vs s' e H Hne. simpl. unfold discover_one. rewrite H.
    destruct e; try reflexivity. exfalso; exact (Hne status0 eq_refl).
Qed.

Lemma discover_vehicles_partial_failure_witness :
  exists s2 ids,
    discover_vehicles (list Z) (api_get_mappings 1000 failing_basic_server)
      (api_get_basic 1000 failing_basic_server) [] = (s2, inr ids) /\
    Forall2 (fun v b => vin b = v) [JStr "V1"; JStr "V2"; JStr "V3"] ids.
Proof.
  destruct (discover_vehicles_partial_failure (list Z)
              (api_get_mappings 1000 failing_basic_server)
              (api_get_basic 1000 failing_basic_server)) as [H _].
  apply (H [] [1000] [JStr "V1"; JStr "V2"; JStr "V3"]).
  - vm_compute. reflexivity.
  - vm_compute. repeat split.
Defined.

Example discover_vehicles_placeholder_for_V2 :
  snd (discover_vehicles (list Z) (api_get_mappings 1000 failing_basic_server)
         (api_get_basic 1000 failing_basic_server) []) =
  inr [set_vin (JStr "V1") {| vin := JStr ""; brand := JStr "BMW"; model := JStr "i4";
                             propulsion := JStr ""; construction_year := JNull |};
       placeholder (JStr "V2");
       set_vin (JStr "V3") {| vin := JStr ""; brand := JStr "BMW"; model := JStr "i4";
                             propulsion := JStr ""; construction_year := JNull |}].
Proof. vm_compute. reflexivity. Qed.

(** ** The device-authorization polling loop *)

(** C9 (counterexample): with [expires_in = 6] and [interval = 5], the
    deadline check at time 5 passes, the loop sleeps to time 10 and polls
    there, past the deadline at 6, and the token issued then is returned. *)
Lemma poll_for_authorization_runs_past_deadline :
  poll_for_authorization 0 6 5 [(0, inl AuthorizationPending); (0, inr issued_tokens)] =
    (Some (inr issued_tokens), [5; 10]).
Proof. reflexivity. Qed.

Lemma poll_loop_times_bound (deadline M : Z)
    (polls : list (Z * (Exc + TokenResponse))) :
  10 <= M ->
  forall clock interval, interval <= M ->
  Forall (fun t => t < deadline + M) (snd (poll_loop deadline clock interval polls)).
Proof.
  intros H10. induction polls as [|[lat r] rest IH]; intros clock interval Hi; simpl.
  - destruct (clock <? deadline); constructor.
  - destruct (Z.ltb_spec clock deadline) as [Hlt|]; [| constructor].
    destruct r as [e|tok].
    + destruct e; simpl; try (constructor; [lia | constructor]).
      * destruct (poll_loop deadline (clock + interval + lat) interval rest) as [res times] eqn:E.
        simpl. constructor; [lia |].
        pose proof (IH (clock + interval + lat) interval Hi) as H. rewrite E in H. exact H.
      * destruct (poll_loop deadline (clock + interval + lat) (Z.min (interval + 2) 10) rest)
          as [res times] eqn:E.
        simpl. constructor; [lia |].
        pose proof (IH (clock + interval + lat) (Z.min (interval + 2) 10) ltac:(lia)) as H.
        rewrite E in H. exact H.
    + simpl. constructor; [lia | constructor].
Qed.

(** C9 (amended): the deadline start + expires_in is checked before each
    sleep: once the clock is at or past it the loop raises
    [DeviceCodeExpired]; before it, the loop sleeps the current interval
    and polls, returns the token set of a successful poll, keeps the
    interval on [AuthorizationPending], replaces it by min(interval + 2, 10)
    on [SlowDown] and re-raises any other error.  So a poll can be sent
    after the deadline, but every poll is sent before
    deadline + max(initial interval, 10). *)
Lemma poll_for_authorization_bounded (start expires_in interval : Z)
    (polls : list (Z * (Exc + TokenResponse))) :
  let deadline := start + expires_in in
  Forall (fun t => t < deadline + Z.max interval 10)
    (snd (poll_for_authorization start expires_in interval polls)) /\
  (forall clock i ps, deadline <= clock ->
     poll_loop deadline clock i ps = (Some (inl DeviceCodeExpired), [])) /\
  (forall clock i lat tok rest, clock < deadline ->
     poll_loop deadline clock i ((lat, inr tok) :: rest) = (Some (inr tok), [clock + i])) /\
  (forall clock i lat rest, clock < deadline ->
     poll_loop deadline clock i ((lat, inl AuthorizationPending) :: rest) =
     let (res, times) := poll_loop deadline (clock + i + lat) i rest in
     (res, (clock + i) :: times)) /\
  (forall clock i lat rest, clock < deadline ->
     poll_loop deadline clock i ((lat, inl SlowDown) :: rest) =
     let (res, times) := poll_loop deadline (clock + i + lat) (Z.min (i + 2) 10) rest in
     (res, (clock + i) :: times)) /\
  (forall clock i lat e rest, clock < deadline -> e <> AuthorizationPending -> e <> SlowDown ->
     poll_loop deadline clock i ((lat, inl e) :: rest) = (Some (inl e), [clock + i])).
Proof.
  cbv zeta. split; [| split; [| split; [| split; [| split]]]].
  - apply poll_loop_times_bound; lia.
  - intros clock i ps Hle. destruct ps as [|[lat r] ps]; simpl;
      destruct (Z.ltb_spec clock (start + expires_in)); (lia || reflexivity).
  - intros clock i lat tok rest Hlt. simpl.
    destruct (Z.ltb_spec clock (start + expires_in)); [reflexivity | lia].
  - intros clock i lat rest Hlt. simpl.
    destruct (Z.ltb_spec clock (start + expires_in)); [reflexivity | lia].
  - intros clock i lat rest Hlt. simpl.
    destruct (Z.ltb_spec clock (start + expires_in)); [reflexivity | lia].
  - intros clock i lat e rest Hlt Hp Hs. simpl.
    destruct (Z.ltb_spec clock (start + expires_in)); [| lia].
    destruct e; congruence.
Qed.

Lemma poll_for_authorization_bounded_witness :
  poll_for_authorization 0 0 5 [(0, inr issued_tokens)] = (Some (inl DeviceCodeExpired), []) /\
  poll_for_authorization 0 6 5 [(0, inl SlowDown); (0, inr issued_tokens)] =
    (Some (inr issued_tokens), [5; 12]).
Proof.
  destruct (poll_for_authorization_bounded 0 0 5 []) as (_ & Hexp & _).
  destruct (poll_for_authorization_bounded 0 6 5 []) as (_ & _ & Hok & _ & Hslow & _).
  unfold poll_for_authorization. split.
  - apply Hexp. lia.
  - rewrite (Hslow 0 5 0 [(0, inr issued_tokens)] ltac:(lia)).
    rewrite (Hok (0 + 5 + 0) (Z.min (5 + 2) 10) 0 issued_tokens [] ltac:(lia)).
    reflexivity.
Defined.

(** * Further properties of the code *)

(** ** The ledger over time *)

Lemma prune_suffix (cutoff : Z) (log : list Z) :
  exists dropped, log = dropped ++ Ledger.prune cutoff log /\
    Forall (fun t => t < cutoff) dropped.
Proof.
  induction log as [|t r IH]; simpl.
  - exists []. split; [reflexivity | constructor].
  - destruct (Z.ltb_spec t cutoff) as [Hlt|].
    + destruct IH as (d & Hd & Hf). exists (t :: d). simpl. rewrite <- Hd.
      split; [reflexivity | constructor; assumption].
    + exists []. split; [reflexivity | constructor].
Qed.

Lemma prune_length (cutoff : Z) (log : list Z) :
  (length (Ledger.prune cutoff log) <= length log)%nat.
Proof.
  destruct (prune_suffix cutoff log) as (d & Hd & _).
  rewrite Hd at 2. rewrite length_app. lia.
Qed.

Lemma prune_head (cutoff : Z) (log : list Z) (t : Z) (r : list Z) :
  Ledger.prune cutoff log = t :: r -> cutoff <= t.
Proof.
  induction log as [|x l IH]; simpl; [discriminate |].
  destruct (Z.ltb_spec x cutoff); [exact IH |]. intros [= -> _]. assumption.
Qed.

Lemma prune_twice (c1 c2 : Z) (log : list Z) :
  c1 <= c2 -> Ledger.prune c2 (Ledger.prune c1 log) = Ledger.prune c2 log.
Proof.
  intros Hc. induction log as [|t r IH]; simpl; [reflexivity |].
  destruct (Z.ltb_spec t c1).
  - rewrite IH. simpl. destruct (Z.ltb_spec t c2); [reflexivity | lia].
  - reflexivity.
Qed.

(** X1: pruning drops a prefix of entries all older than the cutoff and
    keeps the rest as it is; pruning twice is pruning once; and when the
    ledger is in time order, no kept entry is older than the cutoff. *)
Lemma prune_call_log_window (now : Z) (log : list Z) :
  (exists dropped, log = dropped ++ Ledger.prune_call_log now log /\
     Forall (fun t => t < now - RATE_LIMIT_WINDOW) dropped) /\
  Ledger.prune_call_log now (Ledger.prune_call_log now log) = Ledger.prune_call_log now log /\
  (Sorted Z.le log ->
   Forall (fun t => now - RATE_LIMIT_WINDOW <= t) (Ledger.prune_call_log now log)).
Proof.
  unfold Ledger.prune_call_log. split; [apply prune_suffix |]. split.
  - apply prune_twice. lia.
  - intros Hs. destruct (prune_suffix (now - RATE_LIMIT_WINDOW) log) as (d & Hd & _).
    destruct (Ledger.prune (now - RATE_LIMIT_WINDOW) log) as [|t r] eqn:Hp;
      [constructor |].
    pose proof (prune_head _ _ _ _ Hp) as Ht.
    rewrite Hd in Hs. apply Sorted_StronglySorted in Hs; [| intros ???; lia].
    assert (Hs' : StronglySorted Z.le (t :: r)).
    { clear Hd Hp Ht. induction d as [|x d IHd]; [exact Hs |].
      apply IHd. exact (proj1 (StronglySorted_inv Hs)). }
    clear Hs. rename Hs' into Hs.
    apply StronglySorted_inv in Hs. destruct Hs as [_ Hall].
    constructor; [exact Ht |].
    eapply Forall_impl; [exact Hall |]. simpl. intros x Hx. lia.
Qed.

Lemma prune_call_log_window_witness :
  Forall (fun t => 100000 - RATE_LIMIT_WINDOW <= t)
    (Ledger.prune_call_log 100000 [1; 13600; 13601; 99999]).
Proof.
  destruct (prune_call_log_window 100000 [1; 13600; 13601; 99999]) as (_ & _ & H).
  apply H. repeat constructor; simpl; lia.
Defined.

(** X2: starting from a ledger of at most 50 entries, a REST request or a
    container creation, whatever its outcome, leaves at most 50 entries:
    the 24-hour budget is never overdrawn. *)
Lemma requests_never_exceed_budget (t_check t_done : Z) (resp : option HttpResponse)
    (log : list Z) :
  Z.of_nat (length log) <= RATE_LIMIT_MAX_CALLS ->
  Z.of_nat (length (fst (request t_check t_done resp log))) <= RATE_LIMIT_MAX_CALLS /\
  Z.of_nat (length (fst (create_container t_check t_done resp log))) <= RATE_LIMIT_MAX_CALLS.
Proof.
  intros H.
  pose proof (prune_length (t_check - RATE_LIMIT_WINDOW) log) as Hp1.
  unfold request, create_container, Ledger.check_rate_limit.
  fold (Ledger.prune_call_log t_check log) in Hp1.
  destruct (Z.leb_spec RATE_LIMIT_MAX_CALLS
              (Z.of_nat (length (Ledger.prune_call_log t_check log)))) as [Hge|Hlt].
  - destruct (Ledger.prune_call_log t_check log); simpl in *;
      unfold RATE_LIMIT_MAX_CALLS in *; split; lia.
  - set (L := Ledger.prune_call_log t_check log) in *.
    destruct resp as [r|]; cbn [fst]; [| split; lia].
    unfold Ledger.remaining_calls, Ledger.record_call. cbn [fst].
    pose proof (prune_length (t_done - RATE_LIMIT_WINDOW) (L ++ [t_done])) as Hp2.
    fold (Ledger.prune_call_log t_done (L ++ [t_done])) in Hp2.
    rewrite length_app in Hp2. simpl in Hp2.
    assert (Hb : Z.of_nat (length (L ++ [t_done])) <= RATE_LIMIT_MAX_CALLS)
      by (rewrite length_app; simpl; lia).
    split.
    + destruct (status r =? 401); [simpl; lia |].
      destruct (status r =? 429); [simpl; lia |].
      destruct (negb _); [simpl; lia |].
      destruct (content_length r =? 0); simpl; lia.
    + destruct (negb _); simpl; exact Hb.
Qed.

Lemma requests_never_exceed_budget_witness :
  Z.of_nat (length (fst (request 1000 1000
     (Some {| status := 200; content_length := 0; body := JNull |}) (repeat 1000 49)))) <= 50.
Proof.
  apply (requests_never_exceed_budget 1000 1000
           (Some {| status := 200; content_length := 0; body := JNull |}) (repeat 1000 49)).
  vm_compute. discriminate.
Defined.

(** X3: with no call in between, the remaining budget never shrinks as
    time passes. *)
Lemma remaining_calls_monotone (t1 t2 : Z) (log : list Z) :
  t1 <= t2 -> snd (Ledger.remaining_calls t1 log) <= snd (Ledger.remaining_calls t2 log).
Proof.
  intros Ht. unfold Ledger.remaining_calls, Ledger.prune_call_log; simpl.
  rewrite <- (prune_twice (t1 - RATE_LIMIT_WINDOW) (t2 - RATE_LIMIT_WINDOW) log)
    by lia.
  pose proof (prune_length (t2 - RATE_LIMIT_WINDOW)
                (Ledger.prune (t1 - RATE_LIMIT_WINDOW) log)). lia.
Qed.

Lemma remaining_calls_monotone_witness :
  snd (Ledger.remaining_calls 0 [0; 0]) <= snd (Ledger.remaining_calls 86401 [0; 0]).
Proof. apply remaining_calls_monotone. lia. Defined.

(** X4: once the oldest kept call ages past the window and the next one
    does not, the remaining budget grows by exactly one, with no reset. *)
Lemma remaining_calls_replenish_one (t1 t2 : Z) (log : list Z) (oldest : Z)
    (rest : list Z) :
  Ledger.prune_call_log t1 log = oldest :: rest ->
  Z.of_nat (length (oldest :: rest)) <= RATE_LIMIT_MAX_CALLS ->
  oldest < t2 - RATE_LIMIT_WINDOW ->
  Forall (fun t => t2 - RATE_LIMIT_WINDOW <= t) rest ->
  snd (Ledger.remaining_calls t2 log) = snd (Ledger.remaining_calls t1 log) + 1.
Proof.
  intros Hp Hlen Ho Hrest.
  pose proof (prune_head _ _ _ _ Hp) as Hh.
  unfold Ledger.remaining_calls. simpl.
  unfold Ledger.prune_call_log in *.
  rewrite <- (prune_twice (t1 - RATE_LIMIT_WINDOW) (t2 - RATE_LIMIT_WINDOW) log) by lia.
  rewrite Hp. simpl. destruct (Z.ltb_spec oldest (t2 - RATE_LIMIT_WINDOW)); [| lia].
  assert (Hr : Ledger.prune (t2 - RATE_LIMIT_WINDOW) rest = rest).
  { destruct rest as [|x r]; [reflexivity |]. simpl.
    apply Forall_cons in Hrest as [Hx _].
    destruct (Z.ltb_spec x (t2 - RATE_LIMIT_WINDOW)); [lia | reflexivity]. }
  rewrite Hr. simpl in Hlen |- *. unfold RATE_LIMIT_MAX_CALLS in *. lia.
Qed.

Lemma remaining_calls_replenish_one_witness :
  snd (Ledger.remaining_calls 90000 [10; 5000]) = snd (Ledger.remaining_calls 80000 [10; 5000]) + 1.
Proof.
  apply (remaining_calls_replenish_one 80000 90000 [10; 5000] 10 [5000]).
  - reflexivity.
  - simpl. unfold RATE_LIMIT_MAX_CALLS. lia.
  - unfold RATE_LIMIT_WINDOW. lia.
  - constructor; [unfold RATE_LIMIT_WINDOW; lia | constructor].
Defined.

(** ** Containers and the update cycle *)

(** X5: [create_container] past the rate-limit check records the call
    whatever the answer (without pruning again, unlike [_request]); a
    non-2xx answer (401 and 429 included) raises [APIError] with its
    status before the body is read; a 2xx answer decoded to a dict yields
    its [containerId], the empty id when absent; one decoded to anything
    else ([None] included) raises [AttributeError]. *)
Lemma create_container_outcomes (t_check t_done : Z) (r : HttpResponse) (log : list Z) :
  Z.of_nat (length (Ledger.prune_call_log t_check log)) < RATE_LIMIT_MAX_CALLS ->
  let res := create_container t_check t_done (Some r) log in
  fst res = Ledger.prune_call_log t_check log ++ [t_done] /\
  (~ (200 <= status r < 300) -> snd res = inl (APIError (status r))) /\
  (200 <= status r < 300 -> forall kvs, body r = JObj kvs ->
     snd res = inr (get_default (assoc_get "containerId" kvs) (JStr ""))) /\
  (200 <= status r < 300 -> (forall kvs, body r <> JObj kvs) -> snd res = inl AttributeError).
Proof.
  intros H. cbv zeta. unfold create_container. rewrite (check_rate_limit_ok _ _ H).
  unfold Ledger.record_call.
  destruct (Z.leb_spec 200 (status r)); destruct (Z.ltb_spec (status r) 300); simpl.
  - split; [reflexivity |]. split; [lia |]. split.
    + intros _ kvs ->. reflexivity.
    + intros _ Hn. destruct (body r) as [| | | | | kvs]; try reflexivity.
      exfalso. exact (Hn kvs eq_refl).
  - repeat split; intros; lia.
  - repeat split; intros; lia.
  - repeat split; intros; lia.
Qed.

Lemma create_container_outcomes_witness :
  create_container 0 1 (Some {| status := 201; content_length := 2; body := JObj [] |}) [] =
    ([1], inr (JStr "")).
Proof.
  destruct (create_container_outcomes 0 1 {| status := 201; content_length := 2; body := JObj [] |} [])
    as (H1 & _ & H3 & _).
  - vm_compute. reflexivity.
  - destruct (create_container 0 1 _ []) as [l res] eqn:E. simpl in H1, H3. subst l.
    rewrite (H3 ltac:(simpl; lia) [] eq_refl). reflexivity.
Defined.

Lemma first_container_id_exists (cs : list json) (kvs : list (string * json)) :
  In (JObj kvs) cs -> truthy (container_id_of kvs) = true ->
  exists cid, first_container_id cs = Some cid /\ truthy cid = true.
Proof.
  induction cs as [|c r IH]; simpl; [tauto |].
  intros [-> | Hin] Ht.
  - rewrite Ht. eauto.
  - destruct c; try exact (IH Hin Ht).
    destruct (truthy (container_id_of kvs0)) eqn:E; [eauto | exact (IH Hin Ht)].
Qed.

(** X6: [_ensure_container] reuses an existing container: when
    [get_containers] lists a dict with a truthy id ([containerId], else
    [id], else [container_id]), no container is created and the id of the
    first such dict is taken; when [get_containers] fails, nothing is
    created and the id stays empty. *)
Lemma ensure_container_reuses (S : Type) (gc cc : S -> S * (Exc + json)) (s s1 : S) :
  (forall cs kvs, gc s = (s1, inr (JList cs)) -> In (JObj kvs) cs ->
     truthy (container_id_of kvs) = true ->
     exists cid, first_container_id cs = Some cid /\
       ensure_container S gc cc s = (s1, JStr (py_str cid))) /\
  (forall e, gc s = (s1, inl e) -> ensure_container S gc cc s = (s1, JStr "")).
Proof.
  split.
  - intros cs kvs Hgc Hin Ht.
    destruct (first_container_id_exists cs kvs Hin Ht) as (cid & Hf & _).
    exists cid. split; [exact Hf |].
    unfold ensure_container. rewrite Hgc. simpl. rewrite Hf. reflexivity.
  - intros e Hgc. unfold ensure_container. rewrite Hgc. reflexivity.
Qed.

Lemma ensure_container_reuses_witness :
  ensure_container nat
    (count_call (inr (JList [JStr "x"; JObj [("id", JStr "c7")]])))
    (count_call (inr (JStr "new"))) 0%nat = (1%nat, JStr "c7").
Proof.
  destruct (ensure_container_reuses nat
              (count_call (inr (JList [JStr "x"; JObj [("id", JStr "c7")]])))
              (count_call (inr (JStr "new"))) 0%nat 1%nat) as [H _].
  destruct (H [JStr "x"; JObj [("id", JStr "c7")]] [("id", JStr "c7")] eq_refl
              ltac:(simpl; tauto) eq_refl) as (cid & Hf & He).
  simpl in Hf. injection Hf as <-. exact He.
Defined.

(** X7: a poll cycle whose token refresh is rejected (non-200 answer with
    a body) ends in [ConfigEntryAuthFailed] without any API call and with
    the store unchanged; a cycle with a valid token but no container id
    (none known and none obtained) ends normally after the container
    lookup, without fetching any telemetry and with the store unchanged. *)
Lemma async_update_data_early_exits (S : Type) (gc cc : S -> S * (Exc + json))
    (fd : S -> string -> string -> S * (Exc + list TelematicEntry))
    (now : Z) (tokens : TokenResponse) (cid : json) (s : S)
    (data : gmap string VehicleData) (vins : list string) :
  (forall st b, token_time tokens + expires_in tokens - 300 <= now -> st <> 200 ->
     async_update_data S gc cc fd now tokens (st, Some b) cid s data vins =
     (tokens, cid, s, data, UpdateAuthFailed)) /\
  (forall resp s1 c, now < token_time tokens + expires_in tokens - 300 ->
     truthy cid = false -> ensure_container S gc cc s = (s1, c) -> truthy c = false ->
     async_update_data S gc cc fd now tokens resp cid s data vins =
     (tokens, c, s1, data, UpdateOk)).
Proof.
  split.
  - intros st b Hle Hst. unfold async_update_data, ensure_valid_token, expiry_timestamp,
      TOKEN_REFRESH_MARGIN, refresh_tokens.
    destruct (Z.ltb_spec now (token_time tokens + expires_in tokens - 300)); [lia |].
    apply Z.eqb_neq in Hst. simpl. rewrite Hst. reflexivity.
  - intros resp s1 c Hlt Hcid Hec Hc. unfold async_update_data.
    rewrite (proj2 (proj2 (ensure_valid_token_threshold now tokens resp)) Hlt). simpl.
    rewrite Hcid, Hec, Hc. reflexivity.
Qed.

Lemma async_update_data_early_exits_witness :
  async_update_data nat (count_call (inl (APIError 500))) (count_call (inr (JStr "")))
    no_fetch 5000 sample_tokens (400, Some (error_body "invalid_grant")) (JStr "") 0%nat
    sample_store ["V1"] = (sample_tokens, JStr "", 0%nat, sample_store, UpdateAuthFailed).
Proof.
  destruct (async_update_data_early_exits nat (count_call (inl (APIError 500)))
              (count_call (inr (JStr ""))) no_fetch 5000 sample_tokens (JStr "") 0%nat
              sample_store ["V1"]) as [H _].
  apply H; [simpl; lia | discriminate].
Defined.

Lemma refresh_tokens_token_time (rt : string) (now : Z) (resp : TokenHttp)
    (ts : TokenResponse) :
  refresh_tokens rt now resp = inr ts -> token_time ts = now.
Proof.
  destruct resp as [st [b|]]; unfold refresh_tokens;
    destruct (st =? 200); try discriminate.
  destruct (get_required (tb_access_token b)); [discriminate |].
  intros [= <-]. reflexivity.
Qed.

(** ** Stream reconnection and message routing *)

Lemma reconnect_delays_app_clean (b : Z) (pre os : list ConnOutcome) :
  reconnect_delays b (pre ++ CleanDisconnect :: os) =
  reconnect_delays b pre ++ reconnect_delays MQTT_RECONNECT_MIN os.
Proof.
  revert b. induction pre as [|o r IH]; intros b; simpl; [reflexivity |].
  destruct o; simpl; rewrite ?IH; reflexivity.
Qed.

(** X9: every wait of the reconnection loop lies between
    [MQTT_RECONNECT_MIN] and [MQTT_RECONNECT_MAX], whatever the passes
    do, when the initial backoff does; and a clean pass forgets the
    history: what follows is waited as from a fresh start. *)
Lemma reconnect_delays_bounded (b : Z) (os : list ConnOutcome) :
  MQTT_RECONNECT_MIN <= b <= MQTT_RECONNECT_MAX ->
  Forall (fun d => MQTT_RECONNECT_MIN <= d <= MQTT_RECONNECT_MAX) (reconnect_delays b os) /\
  (forall pre rest, os = pre ++ CleanDisconnect :: rest ->
     reconnect_delays b os = reconnect_delays b pre ++ reconnect_delays MQTT_RECONNECT_MIN rest).
Proof.
  intros Hb. split.
  - revert b Hb. unfold MQTT_RECONNECT_MIN, MQTT_RECONNECT_MAX.
    induction os as [|o r IH]; intros b Hb; simpl; [constructor |].
    destruct o; unfold MQTT_RECONNECT_MIN, MQTT_RECONNECT_MAX.
    + constructor; [lia | apply IH; lia].
    + constructor; [lia | apply IH; lia].
    + apply IH; lia.
  - intros pre rest ->. apply reconnect_delays_app_clean.
Qed.

Lemma reconnect_delays_bounded_witness :
  reconnect_delays 5 [ConnectFailed; ConnectFailed; CleanDisconnect; ConnectFailed] =
    reconnect_delays 5 [ConnectFailed; ConnectFailed] ++ reconnect_delays 5 [ConnectFailed] /\
  Forall (fun d => 5 <= d <= 300)
    (reconnect_delays 5 [ConnectFailed; ConnectFailed; CleanDisconnect; ConnectFailed]).
Proof.
  destruct (reconnect_delays_bounded 5 [ConnectFailed; ConnectFailed; CleanDisconnect; ConnectFailed])
    as [Hf Hc].
  - unfold MQTT_RECONNECT_MIN, MQTT_RECONNECT_MAX. lia.
  - split; [exact (Hc [ConnectFailed; ConnectFailed] [ConnectFailed] eq_refl) | exact Hf].
Defined.

(** X10: [n] connection failures in a row, starting from a backoff [b]
    within the bounds, wait [min(b * 2^i, MQTT_RECONNECT_MAX)] before the
    [i]-th retry: exponential backoff capped at the maximum. *)
Lemma reconnect_delays_doubling (n : nat) (b : Z) :
  0 <= b <= MQTT_RECONNECT_MAX ->
  reconnect_delays b (repeat ConnectFailed n) =
  map (fun i => Z.min (b * 2 ^ Z.of_nat i) MQTT_RECONNECT_MAX) (seq 0 n).
Proof.
  unfold MQTT_RECONNECT_MAX. revert b. induction n as [|n IH]; intros b Hb; simpl;
    [reflexivity |].
  unfold MQTT_RECONNECT_MAX. f_equal; [lia |]. rewrite IH by lia. rewrite <- seq_shift, map_map.
  apply map_ext. intros i. rewrite Nat2Z.inj_succ, Z.pow_succ_r by lia.
  assert (1 <= 2 ^ Z.of_nat i)
    by (pose proof (Z.pow_le_mono_r 2 0 (Z.of_nat i)); simpl in *; lia).
  destruct (Z.le_ge_cases (b * 2) 300) as [Hle | Hge].
  - rewrite (Z.min_l (b * 2) 300 Hle). f_equal. ring.
  - rewrite (Z.min_r (b * 2) 300 ltac:(lia)). rewrite !Z.min_r; nia.
Qed.

Lemma reconnect_delays_doubling_witness :
  reconnect_delays 5 (repeat ConnectFailed 8) = [5; 10; 20; 40; 80; 160; 300; 300].
Proof.
  rewrite (reconnect_delays_doubling 8 5) by (unfold MQTT_RECONNECT_MAX; lia).
  reflexivity.
Defined.

Lemma string_app_cons (x : Ascii.ascii) (a b : string) :
  String x a +:+ b = String x (a +:+ b).
Proof. reflexivity. Qed.

Lemma string_app_assoc' (a b c : string) : (a +:+ b) +:+ c = a +:+ (b +:+ c).
Proof.
  induction a as [|x a IH]; [reflexivity |].
  rewrite !string_app_cons, IH. reflexivity.
Qed.

Lemma string_app_nil_r' (a : string) : a +:+ "" = a.
Proof.
  induction a as [|x a IH]; [reflexivity |].
  rewrite string_app_cons, IH. reflexivity.
Qed.

Lemma split_go_no_sep (c : Ascii.ascii) (s r acc : string) :
  (forall x, In x (String.list_ascii_of_string s) -> x <> c) ->
  split_go c (s +:+ r) acc = split_go c r (acc +:+ s).
Proof.
  revert acc. induction s as [|a s IH]; intros acc Hs; simpl.
  - rewrite string_app_nil_r'. reflexivity.
  - destruct (decide (a = c)) as [Ea | Ea].
    + exfalso. apply (Hs a); simpl; auto.
    + rewrite IH by (intros x Hx; apply Hs; simpl; auto).
      rewrite string_app_assoc'. reflexivity.
Qed.

Lemma split_slash_telemetry_topic (v : string) :
  (forall x, In x (String.list_ascii_of_string v) -> x <> "/"%char) ->
  split_slash (telemetry_topic v) = ["cardata"; v; "telemetry"].
Proof.
  intros Hv. unfold split_slash, telemetry_topic. rewrite !string_app_cons.
  change ("" +:+ (v +:+ "/telemetry")) with (v +:+ "/telemetry"). simpl.
  rewrite split_go_no_sep by exact Hv. reflexivity.
Qed.

(** X11: the subscription topic of a VIN without ['/'] splits back to
    that VIN, so a message on it is handled exactly as the callback
    [_on_mqtt_message] does for that VIN, a raised exception leaving the
    store as it was. *)
Lemma telemetry_topic_round_trip (v : string) (now : Z) (payload : json)
    (data : gmap string VehicleData) :
  (forall x, In x (String.list_ascii_of_string v) -> x <> "/"%char) ->
  split_slash (telemetry_topic v) = ["cardata"; v; "telemetry"] /\
  handle_message now (telemetry_topic v) payload data =
    match on_mqtt_message now v payload data with inl _ => data | inr d => d end.
Proof.
  intros Hv. pose proof (split_slash_telemetry_topic v Hv) as Hs.
  split; [exact Hs |]. unfold handle_message. rewrite Hs. reflexivity.
Qed.

Lemma telemetry_topic_round_trip_witness :
  split_slash (telemetry_topic "WBA12345") = ["cardata"; "WBA12345"; "telemetry"].
Proof.
  apply (telemetry_topic_round_trip "WBA12345" 0 JNull ∅).
  simpl. intros x Hx. repeat destruct Hx as [<- | Hx]; try discriminate. destruct Hx.
Defined.

(** ** Shape of the store through REST polls and stream messages *)

Lemma keeps_vehicles_refl (stamp : VehicleData -> option Z) (data : gmap string VehicleData) :
  keeps_vehicles stamp data data.
Proof. split; [tauto | intros k vd H; exists vd; auto]. Qed.

Lemma keeps_vehicles_trans (stamp : VehicleData -> option Z)
    (d1 d2 d3 : gmap string VehicleData) :
  keeps_vehicles stamp d1 d2 -> keeps_vehicles stamp d2 d3 -> keeps_vehicles stamp d1 d3.
Proof.
  intros [D12 K12] [D23 K23]. split.
  - intros k. rewrite D23. apply D12.
  - intros k vd H1. destruct (K12 k vd H1) as (vd2 & H2 & B2 & S2 & T2).
    destruct (K23 k vd2 H2) as (vd3 & H3 & B3 & S3 & T3).
    exists vd3. split; [exact H3 |]. split; [congruence |]. split; [congruence |]. auto.
Qed.

Lemma keeps_vehicles_insert (stamp : VehicleData -> option Z)
    (data : gmap string VehicleData) (k : string) (vd vd' : VehicleData) :
  data !! k = Some vd -> basic vd' = basic vd -> stamp vd' = stamp vd ->
  (forall n, is_Some (telemetry vd !! n) -> is_Some (telemetry vd' !! n)) ->
  keeps_vehicles stamp data (<[k := vd']> data).
Proof.
  intros Hk Hb Hs Ht. split.
  - intros k'. destruct (decide (k = k')) as [<- | Hne].
    + rewrite lookup_insert_eq, Hk. split; intros _; eauto.
    + rewrite lookup_insert_ne by exact Hne. tauto.
  - intros k' vd0 H0. destruct (decide (k = k')) as [<- | Hne].
    + rewrite Hk in H0. injection H0 as <-. exists vd'.
      rewrite lookup_insert_eq. auto.
    + exists vd0. rewrite lookup_insert_ne by exact Hne. auto.
Qed.

Lemma store_entries_keys (es : list TelematicEntry) (m : gmap string TelematicEntry)
    (n : string) :
  is_Some (m !! n) -> is_Some (store_entries es m !! n).
Proof. rewrite store_entries_lookup. destruct (find_last n es); eauto. Qed.

Lemma on_mqtt_message_shape (now : Z) (v : string) (payload : json)
    (data data' : gmap string VehicleData) :
  on_mqtt_message now v payload data = inr data' ->
  data' = data \/
  exists k vd kvs, data !! k = Some vd /\
    data' = <[k := {| basic := basic vd;
                      telemetry := store_entries (entries_of kvs) (telemetry vd);
                      rest_updated := rest_updated vd;
                      mqtt_updated := Some now |}]> data.
Proof.
  unfold on_mqtt_message.
  destruct (py_get payload "vin" (JStr v)) as [e | mv]; [discriminate |].
  destruct mv as [| | | k | |]; try discriminate; try (intros [= <-]; left; reflexivity).
  destruct (data !! k) as [vd |] eqn:Hk; [| intros [= <-]; left; reflexivity].
  destruct (py_get payload "data" JNull) as [e | d]; [discriminate |].
  destruct (if truthy d then d else JObj []) as [| | | | | kvs];
    try (intros [= <-]; left; reflexivity).
  intros [= <-]. right. eauto.
Qed.

Lemma handle_message_shape (now : Z) (topic : string) (payload : json)
    (data : gmap string VehicleData) :
  handle_message now topic payload data = data \/
  exists k vd kvs, data !! k = Some vd /\
    handle_message now topic payload data =
    <[k := {| basic := basic vd;
              telemetry := store_entries (entries_of kvs) (telemetry vd);
              rest_updated := rest_updated vd;
              mqtt_updated := Some now |}]> data.
Proof.
  unfold handle_message.
  destruct (split_slash topic) as [| x [| v r]]; try (left; reflexivity).
  destruct (on_mqtt_message now v payload data) as [e | d] eqn:E; [left; reflexivity |].
  exact (on_mqtt_message_shape _ _ _ _ _ E).
Qed.

(** X12: whatever topic and payload arrive, a stream message leaves the
    store with the same vehicles, each keeping its basic data, its REST
    timestamp and every telemetry key it had; at most one vehicle
    changes, and a changed vehicle carries [mqtt_updated = now]. *)
Lemma handle_message_keeps_vehicles (now : Z) (topic : string) (payload : json)
    (data : gmap string VehicleData) :
  let data' := handle_message now topic payload data in
  keeps_vehicles rest_updated data data' /\
  (exists k, forall k', k' <> k -> data' !! k' = data !! k') /\
  (forall k vd', data' !! k = Some vd' -> data !! k = Some vd' \/ mqtt_updated vd' = Some now).
Proof.
  cbv zeta. destruct (handle_message_shape now topic payload data) as [-> | (k & vd & kvs & Hk & ->)].
  - split; [apply keeps_vehicles_refl |]. split; [exists ""; auto | auto].
  - split; [| split].
    + apply keeps_vehicles_insert with vd; [exact Hk | reflexivity | reflexivity |].
      intros n. apply store_entries_keys.
    + exists k. intros k' Hne. apply lookup_insert_ne. congruence.
    + intros k' vd' H. destruct (decide (k = k')) as [<- | Hne].
      * rewrite lookup_insert_eq in H. injection H as <-. right. reflexivity.
      * rewrite lookup_insert_ne in H by exact Hne. left. exact H.
Qed.

Lemma merge_rest_data_shape (now : Z) (v : string) (es : list TelematicEntry)
    (data : gmap string VehicleData) :
  keeps_vehicles mqtt_updated data (merge_rest_data now v es data) /\
  (forall k vd', merge_rest_data now v es data !! k = Some vd' ->
     data !! k = Some vd' \/ (k = v /\ rest_updated vd' = Some now)).
Proof.
  unfold merge_rest_data. destruct (data !! v) as [vd |] eqn:Hv.
  - split.
    + apply keeps_vehicles_insert with vd; [exact Hv | reflexivity | reflexivity |].
      intros n. apply store_entries_keys.
    + intros k vd' H. destruct (decide (v = k)) as [<- | Hne].
      * rewrite lookup_insert_eq in H. injection H as <-. right. auto.
      * rewrite lookup_insert_ne in H by exact Hne. left. exact H.
  - split; [apply keeps_vehicles_refl | auto].
Qed.

Lemma fetch_telemetry_data (S : Type) (fetch : S -> string -> S * (Exc + list TelematicEntry))
    (now : Z) (s : S) (data : gmap string VehicleData) (v : string) :
  (fetch_telemetry S fetch now s data v).1.2 = data \/
  exists es, (fetch_telemetry S fetch now s data v).1.2 = merge_rest_data now v es data.
Proof.
  unfold fetch_telemetry. destruct (fetch s v) as [s0 [e | es]]; [| right; eauto].
  destruct e as [r | st | | | | | | | | | | |]; try (left; reflexivity).
  destruct (st =? 401); left; reflexivity.
Qed.

(** X13: a REST poll over the vehicle list keeps the vehicles of the
    store, each with its basic data, its stream timestamp and every
    telemetry key it had; only vehicles of the list change, and a changed
    vehicle carries [rest_updated = now]. *)
Lemma update_vehicles_keeps_vehicles (S : Type)
    (fetch : S -> string -> S * (Exc + list TelematicEntry)) (now : Z) (vins : list string) :
  forall s data,
  let data' := (update_vehicles S fetch now s data vins).1.2 in
  keeps_vehicles mqtt_updated data data' /\
  (forall k vd', data' !! k = Some vd' ->
     data !! k = Some vd' \/ (In k vins /\ rest_updated vd' = Some now)).
Proof.
  cbv zeta. induction vins as [| v vs IH]; intros s data; simpl.
  - split; [apply keeps_vehicles_refl | auto].
  - destruct (decide (v = "")).
    + destruct (IH s data) as [Hk Hs]. split; [exact Hk |].
      intros k vd' H. destruct (Hs k vd' H) as [? | [? ?]]; auto.
    + assert (Hd : keeps_vehicles mqtt_updated data (fetch_telemetry S fetch now s data v).1.2 /\
        forall k vd', (fetch_telemetry S fetch now s data v).1.2 !! k = Some vd' ->
          data !! k = Some vd' \/ (k = v /\ rest_updated vd' = Some now)).
      { destruct (fetch_telemetry_data S fetch now s data v) as [-> | (es & ->)].
        - split; [apply keeps_vehicles_refl | auto].
        - apply merge_rest_data_shape. }
      destruct (fetch_telemetry S fetch now s data v) as [[s' data'] r]. simpl in Hd.
      destruct Hd as [Hk1 Hs1].
      assert (Hstop : keeps_vehicles mqtt_updated data data' /\
        (forall k vd', data' !! k = Some vd' ->
           data !! k = Some vd' \/ ((v = k \/ In k vs) /\ rest_updated vd' = Some now))).
      { split; [exact Hk1 |]. intros k vd' H.
        destruct (Hs1 k vd' H) as [? | [-> ?]]; auto. }
      destruct r as [e | u]; [destruct e; exact Hstop |].
      destruct (IH s' data') as [Hk2 Hs2]. split.
      * exact (keeps_vehicles_trans _ _ _ _ Hk1 Hk2).
      * intros k vd' H. destruct (Hs2 k vd' H) as [H' | [Hin ?]]; [| auto].
        destruct (Hs1 k vd' H') as [? | [-> ?]]; auto.
Qed.

(** X14: for a dict payload the VIN of the payload takes precedence over
    the VIN of the topic, which is only the default of [payload.get("vin")];
    a message for a VIN the store does not hold changes nothing. *)
Lemma on_mqtt_message_payload_vin (now : Z) (kvs : list (string * json))
    (data : gmap string VehicleData) :
  (forall k v1 v2, assoc_get "vin" kvs = Some (JStr k) ->
     on_mqtt_message now v1 (JObj kvs) data = on_mqtt_message now v2 (JObj kvs) data) /\
  (forall v k, get_default (assoc_get "vin" kvs) (JStr v) = JStr k -> data !! k = None ->
     on_mqtt_message now v (JObj kvs) data = inr data).
Proof.
  split.
  - intros k v1 v2 Hk. unfold on_mqtt_message, py_get. rewrite Hk. reflexivity.
  - intros v k Hk Hn. unfold on_mqtt_message, py_get.
    unfold get_default in Hk. rewrite Hk, Hn. reflexivity.
Qed.

Lemma on_mqtt_message_payload_vin_witness :
  on_mqtt_message 7 "V1" (JObj [("vin", JStr "V9"); ("data", JObj [])]) sample_store =
    inr sample_store.
Proof.
  apply (proj2 (on_mqtt_message_payload_vin 7 [("vin", JStr "V9"); ("data", JObj [])]
                  sample_store) "V1" "V9"); reflexivity.
Defined.



(** ** REST answers *)

Lemma request_2xx (t_check t_done : Z) (r : HttpResponse) (log : list Z) :
  Z.of_nat (length (Ledger.prune_call_log t_check log)) < RATE_LIMIT_MAX_CALLS ->
  200 <= status r < 300 ->
  snd (request t_check t_done (Some r) log) =
    inr (if content_length r =? 0 then JNull else body r).
Proof.
  intros H Hs. unfold request. rewrite (check_rate_limit_ok _ _ H). simpl.
  destruct (Z.eqb_spec (status r) 401); [lia |].
  destruct (Z.eqb_spec (status r) 429); [lia |].
  destruct (Z.leb_spec 200 (status r)); [| lia].
  destruct (Z.ltb_spec (status r) 300); [| lia]. simpl.
  destruct (content_length r =? 0); reflexivity.
Qed.

(** X16: a 2xx telematic-data answer past the rate-limit check yields no
    entries when its content length is 0 ([resp.json()] is then not
    called); otherwise, for a body [resp.json()] decodes, the only
    exception is [AttributeError], raised exactly when the decoded body is
    truthy and not a dict; a dict body gives the entries of its
    [telematicData] dict, or none. *)
Lemma get_telematic_data_2xx (t_check t_done : Z) (r : HttpResponse) (v c : string)
    (log : list Z) :
  Z.of_nat (length (Ledger.prune_call_log t_check log)) < RATE_LIMIT_MAX_CALLS ->
  200 <= status r < 300 ->
  let res := snd (get_telematic_data t_check t_done (fun _ => Some r) v c log) in
  (content_length r = 0 -> res = inr []) /\
  (forall e, res = inl e ->
     e = AttributeError /\ content_length r <> 0 /\ truthy (body r) = true /\
     forall kvs, body r <> JObj kvs) /\
  (content_length r <> 0 -> truthy (body r) = true -> (forall kvs, body r <> JObj kvs) ->
     res = inl AttributeError) /\
  (forall kvs, content_length r <> 0 -> body r = JObj kvs ->
     res = inr (match assoc_get "telematicData" kvs with
                | Some (JObj tkvs) => entries_of tkvs
                | Some _ => []
                | None => entries_of [] end)).
Proof.
  intros H Hs. cbv zeta. unfold get_telematic_data.
  pose proof (request_2xx t_check t_done r log H Hs) as Hr.
  destruct (request t_check t_done (Some r) log) as [log' res] eqn:E. simpl in Hr |- *.
  subst res. split; [| split; [| split]].
  - intros ->. reflexivity.
  - destruct (Z.eqb_spec (content_length r) 0); [discriminate |].
    unfold parse_telematic, py_get. destruct (truthy (body r)) eqn:Et; [| discriminate].
    destruct (body r) as [| | | | | l]; try (intros e [= <-]; split; [reflexivity |];
      split; [assumption |]; split; [reflexivity | discriminate]).
    destruct (assoc_get "telematicData" l) as [[] |]; discriminate.
  - intros Hc Ht Hn. apply Z.eqb_neq in Hc. rewrite Hc.
    unfold parse_telematic, py_get. rewrite Ht. simpl.
    destruct (body r) as [| | | | | l]; try reflexivity.
    exfalso. exact (Hn l eq_refl).
  - intros kvs Hc Hb. apply Z.eqb_neq in Hc. rewrite Hc, Hb.
    unfold parse_telematic, py_get, truthy.
    destruct (bool_decide (kvs = [])) eqn:Ek; simpl.
    + apply bool_decide_eq_true_1 in Ek. subst kvs. reflexivity.
    + destruct (assoc_get "telematicData" kvs) as [[] |]; reflexivity.
Qed.

Lemma get_telematic_data_2xx_witness :
  snd (get_telematic_data 0 1 (fun _ => Some {| status := 200; content_length := 0;
                                                 body := JNull |}) "V1" "c1" []) = inr [].
Proof.
  apply (get_telematic_data_2xx 0 1 {| status := 200; content_length := 0; body := JNull |}
           "V1" "c1" []); [vm_compute; reflexivity | simpl; lia | reflexivity].
Defined.

Lemma entry_of_some (d : string) (dp : json) (e : TelematicEntry) :
  entry_of d dp = Some e <->
  exists dkvs v, dp = JObj dkvs /\ assoc_get "value" dkvs = Some v /\ v <> JNull /\
    e = {| name := d; value := py_str v;
           unit := get_default (assoc_get "unit" dkvs) JNull;
           timestamp := get_default (assoc_get "timestamp" dkvs) (JStr "") |}.
Proof.
  unfold entry_of. destruct dp as [| | | | | l];
    try (split; [discriminate | intros (? & ? & [=] & _)]).
  destruct (assoc_get "value" l) as [v |] eqn:Ev.
  - split.
    + intros H. destruct v; try discriminate H;
        (injection H as <-; exists l; eexists; split; [reflexivity |];
         split; [eassumption |]; split; [discriminate | reflexivity]).
    + intros (dk & v' & [= <-] & Hv & Hn & ->). rewrite Ev in Hv. injection Hv as <-.
      destruct v; [congruence | reflexivity ..].
  - split; [discriminate | intros (dk & v' & [= <-] & Hv & _); congruence].
Qed.

Lemma entries_of_cons (kv : string * json) (r : list (string * json)) :
  entries_of (kv :: r) =
  match entry_of kv.1 kv.2 with Some y => y :: entries_of r | None => entries_of r end.
Proof. reflexivity. Qed.

(** X17: the entries parsed from a [telematicData] dict are exactly its
    items whose payload is a dict with a value other than [None]: each
    entry is named after its key, holds [str(value)], and takes the unit
    ([None] by default) and the timestamp (["" ] by default) of its item. *)
Lemma entries_of_spec (kvs : list (string * json)) (e : TelematicEntry) :
  In e (entries_of kvs) <->
  exists d dkvs v, In (d, JObj dkvs) kvs /\ assoc_get "value" dkvs = Some v /\
    v <> JNull /\
    e = {| name := d; value := py_str v;
           unit := get_default (assoc_get "unit" dkvs) JNull;
           timestamp := get_default (assoc_get "timestamp" dkvs) (JStr "") |}.
Proof.
  induction kvs as [| [d dp] r IH].
  - simpl. split; [intros [] | intros (? & ? & ? & [] & _)].
  - rewrite entries_of_cons. simpl. destruct (entry_of d dp) as [y |] eqn:Ed.
    + simpl. split.
      * intros [<- | H].
        -- apply entry_of_some in Ed as (dk & v & -> & Hv & Hn & ->).
           exists d, dk, v. split; [left; reflexivity | auto].
        -- apply IH in H as (d' & dk & v & Hin & Hrest).
           exists d', dk, v. split; [right; exact Hin | exact Hrest].
      * intros (d' & dk & v & [Heq | Hin] & Hv & Hn & He).
        -- injection Heq as <- ->. left.
           assert (Ee : entry_of d (JObj dk) = Some e)
             by (apply entry_of_some; exists dk, v; auto).
           congruence.
        -- right. apply IH. exists d', dk, v. auto.
    + split.
      * intros H. apply IH in H as (d' & dk & v & Hin & Hrest).
        exists d', dk, v. split; [right; exact Hin | exact Hrest].
      * intros (d' & dk & v & [Heq | Hin] & Hv & Hn & He).
        -- injection Heq as <- ->.
           assert (Ee : entry_of d (JObj dk) = Some e)
             by (apply entry_of_some; exists dk, v; auto).
           congruence.
        -- apply IH. exists d', dk, v. auto.
Qed.

Lemma entries_of_spec_witness :
  In {| name := "odometer"; value := "12000"; unit := JStr "km"; timestamp := JStr "" |}
    (entries_of [("doors.hood", JObj [("value", JNull)]);
                 ("odometer", JObj [("value", JNum 12000); ("unit", JStr "km")])]).
Proof.
  apply entries_of_spec. exists "odometer", [("value", JNum 12000); ("unit", JStr "km")], (JNum 12000).
  split; [simpl; auto |]. split; [reflexivity |]. split; [discriminate | reflexivity].
Defined.

Lemma request_2xx_eq (t_check t_done : Z) (r : HttpResponse) (log : list Z) :
  Z.of_nat (length (Ledger.prune_call_log t_check log)) < RATE_LIMIT_MAX_CALLS ->
  200 <= status r < 300 ->
  request t_check t_done (Some r) log =
    (fst (Ledger.remaining_calls t_done (Ledger.record_call t_done (Ledger.prune_call_log t_check log))),
     inr (if content_length r =? 0 then JNull else body r)).
Proof.
  intros H Hs. unfold request. rewrite (check_rate_limit_ok _ _ H). simpl.
  destruct (Z.eqb_spec (status r) 401); [lia |].
  destruct (Z.eqb_spec (status r) 429); [lia |].
  destruct (Z.leb_spec 200 (status r)); [| lia].
  destruct (Z.ltb_spec (status r) 300); [| lia]. simpl.
  destruct (content_length r =? 0); reflexivity.
Qed.

(** X18: the vehicle mappings may come as a bare list or as any dict
    whose [mappings] key holds that list (other keys, such as paging
    fields, are ignored): both give the same VINs, string items being VINs
    themselves and dict items contributing their [vin]; an empty 2xx body
    raises [AttributeError]. *)
Lemma api_get_mappings_shapes (now st cl : Z) (items : list json)
    (kvs : list (string * json)) (log : list Z) :
  Z.of_nat (length (Ledger.prune_call_log now log)) < RATE_LIMIT_MAX_CALLS ->
  200 <= st < 300 ->
  (cl <> 0 -> assoc_get "mappings" kvs = Some (JList items) ->
   api_get_mappings now (fun _ => Some {| status := st; content_length := cl; body := JList items |}) log =
   api_get_mappings now (fun _ => Some {| status := st; content_length := cl;
                                          body := JObj kvs |}) log /\
   snd (api_get_mappings now (fun _ => Some {| status := st; content_length := cl;
                                              body := JList items |}) log) =
     inr (vins_of_items items)) /\
  (forall b, snd (api_get_mappings now (fun _ => Some {| status := st; content_length := 0;
                                                        body := b |}) log) = inl AttributeError).
Proof.
  intros H Hs. unfold api_get_mappings. split.
  - intros Hc Hm.
    rewrite !request_2xx_eq by (simpl; auto). simpl.
    apply Z.eqb_neq in Hc. rewrite Hc. unfold py_get. rewrite Hm. split; reflexivity.
  - intros b. rewrite request_2xx_eq by (simpl; auto). reflexivity.
Qed.

Lemma api_get_mappings_shapes_witness :
  snd (api_get_mappings 0 (fun _ => Some {| status := 200; content_length := 40;
          body := JObj [("page", JNum 1);
                        ("mappings", JList [JObj [("vin", JStr "V1"); ("mappingType", JStr "PRIMARY")];
                                            JStr "V2"; JNum 3])] |}) []) =
  inr [JStr "V1"; JStr "V2"].
Proof.
  destruct (api_get_mappings_shapes 0 200 40
              [JObj [("vin", JStr "V1"); ("mappingType", JStr "PRIMARY")]; JStr "V2"; JNum 3]
              [("page", JNum 1);
               ("mappings", JList [JObj [("vin", JStr "V1"); ("mappingType", JStr "PRIMARY")];
                                   JStr "V2"; JNum 3])] [])
    as [H _]; [vm_compute; reflexivity | lia |].
  destruct (H ltac:(lia) eq_refl) as [Heq Hv]. rewrite <- Heq. exact Hv.
Defined.

(** X19: a 2xx basic-data answer with an empty body raises
    [AttributeError] (not [APIError], so vehicle discovery does not fall
    back to a placeholder for it), while any dict body gives the vehicle
    with the defaults of [from_api] for missing keys. *)
Lemma api_get_basic_2xx (now : Z) (r : HttpResponse) (log : list Z) (v : json) :
  Z.of_nat (length (Ledger.prune_call_log now log)) < RATE_LIMIT_MAX_CALLS ->
  200 <= status r < 300 ->
  (content_length r = 0 -> snd (api_get_basic now (fun _ => Some r) log v) = inl AttributeError) /\
  (forall kvs, content_length r <> 0 -> body r = JObj kvs ->
     snd (api_get_basic now (fun _ => Some r) log v) =
     inr {| vin := get_default (assoc_get "vin" kvs) (JStr "");
            brand := get_default (assoc_get "brand" kvs) (JStr "BMW");
            model := get_default (assoc_get "model" kvs) (JStr "Unknown");
            propulsion := get_default (assoc_get "propulsion" kvs) (JStr "");
            construction_year := get_default (assoc_get "constructionYear" kvs) JNull |}).
Proof.
  intros H Hs. unfold api_get_basic. rewrite request_2xx_eq by auto. simpl. split.
  - intros ->. reflexivity.
  - intros kvs Hc Hb. apply Z.eqb_neq in Hc. rewrite Hc, Hb. reflexivity.
Qed.

Lemma api_get_basic_2xx_witness :
  snd (api_get_basic 0 (fun _ => Some {| status := 200; content_length := 0; body := JNull |})
         [] (JStr "V1")) = inl AttributeError /\
  discover_one (list Z) (api_get_basic 0 (fun _ => Some {| status := 200; content_length := 0;
                                                             body := JNull |})) [] (JStr "V1") =
    ([0], inl AttributeError).
Proof.
  split.
  - apply (api_get_basic_2xx 0 {| status := 200; content_length := 0; body := JNull |} []
             (JStr "V1")); [vm_compute; reflexivity | simpl; lia | reflexivity].
  - reflexivity.
Defined.

Lemma restore_vehicles_dicts (vs : list VehicleBasicData) :
  restore_vehicles (map vehicle_dict vs) = inr vs.
Proof.
  induction vs as [| [v b m p y] r IH]; [reflexivity |].
  simpl. rewrite IH. reflexivity.
Qed.

(** X20: the config entry written by [_create_entry] restores, at setup,
    the very tokens and vehicles it was written from (no vehicle: setup
    refuses); an entry written without tokens is refused; after the
    reauth flow replaces the ["tokens"] of the entry, setup restores the
    new tokens with the same vehicles. *)
Lemma setup_entry_round_trip (cid : string) (t t' : TokenResponse)
    (vs : list VehicleBasicData) :
  setup_entry (create_entry_data cid (Some t) vs) =
    inr (match vs with [] => None | _ => Some (t, vs) end) /\
  setup_entry (create_entry_data cid None vs) = inr None /\
  setup_entry (dict_set "tokens" (as_dict t') (create_entry_data cid (Some t) vs)) =
    inr (match vs with [] => None | _ => Some (t', vs) end).
Proof.
  unfold setup_entry, create_entry_data. destruct t, t'. simpl.
  rewrite restore_vehicles_dicts.
  split; [| split]; [destruct vs; reflexivity | reflexivity | destruct vs; reflexivity].
Qed.

Lemma poll_loop_spacing (polls : list (Z * (Exc + TokenResponse))) :
  forall dl clock i g, 0 <= g <= i -> g <= 10 -> Forall (fun p => 0 <= fst p) polls ->
  Sorted (fun a b => a + g <= b) (snd (poll_loop dl clock i polls)) /\
  Forall (fun x => clock + i <= x) (snd (poll_loop dl clock i polls)).
Proof.
  induction polls as [| [lat r] rest IH]; intros dl clock i g Hg H10 Hl; simpl.
  - destruct (clock <? dl); simpl; split; constructor.
  - destruct (clock <? dl); [| simpl; split; constructor].
    inversion Hl as [| ? ? Hlat Hrest]; subst. simpl in Hlat.
    assert (Hstep : forall i', g <= i' ->
      let tl := snd (poll_loop dl (clock + i + lat) i' rest) in
      Sorted (fun a b => a + g <= b) (clock + i :: tl) /\
      Forall (fun x => clock + i <= x) (clock + i :: tl)).
    { intros i' Hi'. cbv zeta.
      destruct (IH dl (clock + i + lat) i' g ltac:(lia) H10 Hrest) as [Hs Hf].
      split.
      - constructor; [exact Hs |].
        destruct (snd (poll_loop dl (clock + i + lat) i' rest)) as [| x xs];
          constructor. inversion Hf; lia.
      - constructor; [lia |]. eapply Forall_impl; [exact Hf |]. simpl. intros; lia. }
    destruct r as [e | tok].
    + destruct e; simpl; try (split; repeat constructor; lia).
      * destruct (Hstep i ltac:(lia)) as [Hs Hf]. cbv zeta in Hs, Hf.
        destruct (poll_loop dl (clock + i + lat) i rest); exact (conj Hs Hf).
      * destruct (Hstep (Z.min (i + 2) 10) ltac:(lia)) as [Hs Hf]. cbv zeta in Hs, Hf.
        destruct (poll_loop dl (clock + i + lat) (Z.min (i + 2) 10) rest);
          exact (conj Hs Hf).
    + simpl. split; repeat constructor; lia.
Qed.

(** X21: however the token endpoint answers, two successive polls of the
    authorization loop are at least [min(interval, 10)] seconds apart: a
    [slow_down] never brings the wait under 10 s, but with an initial
    interval above 10 s it brings it down to 10 s. *)
Lemma poll_for_authorization_spacing (start expires_in interval : Z)
    (polls : list (Z * (Exc + TokenResponse))) :
  0 <= interval -> Forall (fun p => 0 <= fst p) polls ->
  Sorted (fun a b => a + Z.min interval 10 <= b)
    (snd (poll_for_authorization start expires_in interval polls)).
Proof.
  intros Hi Hl. unfold poll_for_authorization.
  apply (poll_loop_spacing polls); [lia | lia | exact Hl].
Qed.

Lemma poll_for_authorization_spacing_witness :
  snd (poll_for_authorization 0 600 15 [(0, inl SlowDown); (0, inl AuthorizationPending);
                                          (0, inl AuthorizationPending)]) = [15; 25; 35] /\
  Sorted (fun a b => a + 10 <= b) [15; 25; 35].
Proof.
  split; [reflexivity |].
  exact (poll_for_authorization_spacing 0 600 15
           [(0, inl SlowDown); (0, inl AuthorizationPending); (0, inl AuthorizationPending)]
           ltac:(lia) ltac:(repeat constructor; simpl; lia)).
Defined.

(** X22: after a token check that refreshed, no further refresh is made
    by any check before the new tokens' own threshold
    [now + expires_in - TOKEN_REFRESH_MARGIN]. *)
Lemma ensure_valid_token_no_second_refresh (now : Z) (tokens t' : TokenResponse)
    (resp : TokenHttp) :
  snd (ensure_valid_token now tokens resp) = inr t' ->
  fst (ensure_valid_token now tokens resp) <> [] ->
  forall now' resp', now' < now + expires_in t' - TOKEN_REFRESH_MARGIN ->
  ensure_valid_token now' t' resp' = ([], inr t').
Proof.
  intros H Hf now' resp' Hlt.
  assert (Ht : token_time t' = now).
  { revert H Hf. unfold ensure_valid_token.
    destruct (now <? expiry_timestamp tokens - TOKEN_REFRESH_MARGIN); simpl;
      [intros _ Hf; congruence |].
    destruct (refresh_tokens (refresh_token tokens) now resp) as [e | t] eqn:E;
      [destruct e; discriminate |].
    intros [= <-] _. exact (refresh_tokens_token_time _ _ _ _ E). }
  unfold ensure_valid_token, expiry_timestamp. rewrite Ht.
  destruct (Z.ltb_spec now' (now + expires_in t' - TOKEN_REFRESH_MARGIN)); [reflexivity | lia].
Qed.

Lemma ensure_valid_token_no_second_refresh_witness :
  ensure_valid_token 8000
    {| access_token := "fresh"; refresh_token := "r"; id_token := "";
       expires_in := 3600; gcid := ""; token_time := 5000 |} (401, None) =
  ([], inr {| access_token := "fresh"; refresh_token := "r"; id_token := "";
              expires_in := 3600; gcid := ""; token_time := 5000 |}).
Proof.
  apply (ensure_valid_token_no_second_refresh 5000 sample_tokens
           {| access_token := "fresh"; refresh_token := "r"; id_token := "";
              expires_in := 3600; gcid := ""; token_time := 5000 |}
           (200, Some body_without_refresh)).
  - reflexivity.
  - discriminate.
  - unfold TOKEN_REFRESH_MARGIN. simpl. lia.
Defined.
